(** * Verification of the DICOM reapers

    A shallow embedding of the two instrument backends of the reaper,
    [reaper/dicom_file_reaper.py] (directory polling) and
    [scitran/reaper/dicom_net_reaper.py] (DICOM query/retrieve), together
    with the theorems that relate the behaviour of the code to its
    specification.

    The code is Python 2: [str] is a byte string, [/] on integers is floor
    division, dictionaries are finite maps.  Exceptions are modelled by a
    result type, the file system and the SCU by explicit state. *)

From Stdlib Require Import ZArith String Ascii List Bool Lia.
From stdpp Require Import gmap strings list pretty.

Open Scope Z_scope.

(** ** Exceptions *)

Inductive exn :=
  | AttributeError
  | TypeError
  | ValueError
  | IndexError
  | IOError
  | Exception_ (msg : string).

Inductive res (A : Type) :=
  | Ok (a : A)
  | Raise (e : exn).
Arguments Ok {A} a.
Arguments Raise {A} e.

Definition is_ok {A} (r : res A) : bool :=
  match r with
  | Ok _ => true
  | Raise _ => false
  end.

Definition rbind {A B} (m : res A) (k : A → res B) : res B :=
  match m with
  | Ok a => k a
  | Raise e => Raise e
  end.

Declare Scope res_scope.
Delimit Scope res_scope with res.
Notation "'let?' x ':=' m 'in' k" := (rbind m (fun x => k))
  (at level 10, x pattern, m at level 100, k at level 200) : res_scope.

(** ** Python byte strings *)

Module PyStr.

Definition code (c : ascii) : N := N_of_ascii c.

Definition isupper (c : ascii) : bool := (65 <=? code c)%N && (code c <=? 90)%N.
Definition islower (c : ascii) : bool := (97 <=? code c)%N && (code c <=? 122)%N.
Definition isdigit (c : ascii) : bool := (48 <=? code c)%N && (code c <=? 57)%N.

(** [string.whitespace]: tab, newline, vertical tab, form feed, carriage
    return and space. *)
Definition isspace (c : ascii) : bool :=
  ((9 <=? code c)%N && (code c <=? 13)%N) || (code c =? 32)%N.

(** [string.punctuation]: the printable ASCII characters that are neither
    letters nor digits nor the space. *)
Definition ispunct (c : ascii) : bool :=
  ((33 <=? code c)%N && (code c <=? 47)%N)
  || ((58 <=? code c)%N && (code c <=? 64)%N)
  || ((91 <=? code c)%N && (code c <=? 96)%N)
  || ((123 <=? code c)%N && (code c <=? 126)%N).

Definition tolower (c : ascii) : ascii :=
  if isupper c then ascii_of_N (code c + 32) else c.
Definition toupper (c : ascii) : ascii :=
  if islower c then ascii_of_N (code c - 32) else c.

Fixpoint lower (s : string) : string :=
  match s with
  | EmptyString => EmptyString
  | String c s' => String (tolower c) (lower s')
  end.

Fixpoint upper (s : string) : string :=
  match s with
  | EmptyString => EmptyString
  | String c s' => String (toupper c) (upper s')
  end.

(** [str.title]: a cased character is upper-cased when the previous
    character is not cased, and lower-cased otherwise. *)
Fixpoint title_from (previous_is_cased : bool) (s : string) : string :=
  match s with
  | EmptyString => EmptyString
  | String c s' =>
      if islower c then
        String (if previous_is_cased then c else toupper c) (title_from true s')
      else if isupper c then
        String (if previous_is_cased then tolower c else c) (title_from true s')
      else String c (title_from false s')
  end.
Definition title (s : string) : string := title_from false s.

(** [c in s] for a one-character [c]. *)
Fixpoint contains (c : ascii) (s : string) : bool :=
  match s with
  | EmptyString => false
  | String d s' => Ascii.eqb d c || contains c s'
  end.

(** Split at the first occurrence of [sep]. *)
Fixpoint find_first (sep : ascii) (s : string) : option (string * string) :=
  match s with
  | EmptyString => None
  | String c s' =>
      if Ascii.eqb c sep then Some (EmptyString, s')
      else match find_first sep s' with
           | Some (b, a) => Some (String c b, a)
           | None => None
           end
  end.

(** Split at the last occurrence of [sep]. *)
Fixpoint find_last (sep : ascii) (s : string) : option (string * string) :=
  match s with
  | EmptyString => None
  | String c s' =>
      match find_last sep s' with
      | Some (b, a) => Some (String c b, a)
      | None => if Ascii.eqb c sep then Some (EmptyString, s') else None
      end
  end.

(** [s.partition(sep)] and [s.rpartition(sep)] for a one-character
    separator, the only kind the reapers use. *)
Definition partition (sep : ascii) (s : string) : string * string * string :=
  match find_first sep s with
  | Some (b, a) => (b, String sep EmptyString, a)
  | None => (s, EmptyString, EmptyString)
  end.

Definition rpartition (sep : ascii) (s : string) : string * string * string :=
  match find_last sep s with
  | Some (b, a) => (b, String sep EmptyString, a)
  | None => (EmptyString, EmptyString, s)
  end.

Fixpoint lstrip (chars : ascii → bool) (s : string) : string :=
  match s with
  | EmptyString => EmptyString
  | String c s' => if chars c then lstrip chars s' else s
  end.

Fixpoint rstrip (chars : ascii → bool) (s : string) : string :=
  match s with
  | EmptyString => EmptyString
  | String c s' =>
      match rstrip chars s' with
      | EmptyString => if chars c then EmptyString else String c EmptyString
      | r => String c r
      end
  end.

(** [s.strip(chars)]; [s.strip()] is [strip isspace s]. *)
Definition strip (chars : ascii → bool) (s : string) : string :=
  lstrip chars (rstrip chars s).

Fixpoint startswith (p s : string) : bool :=
  match p, s with
  | EmptyString, _ => true
  | String a p', String b s' => Ascii.eqb a b && startswith p' s'
  | String _ _, EmptyString => false
  end.

(** [s[:n]] *)
Fixpoint slice_to (n : nat) (s : string) : string :=
  match n, s with
  | S n', String c s' => String c (slice_to n' s')
  | _, _ => EmptyString
  end.

(** [s.replace(old, new)] for a non-empty [old]: every occurrence, left to
    right, without overlap.  [skip] counts the characters of an occurrence
    still to be dropped. *)
Fixpoint replace_from (old new : string) (skip : nat) (s : string) : string :=
  match s with
  | EmptyString => EmptyString
  | String c s' =>
      match skip with
      | S k => replace_from old new k s'
      | O =>
          if startswith old s
          then new +:+ replace_from old new (String.length old - 1) s'
          else String c (replace_from old new 0 s')
      end
  end.
Definition replace (old new s : string) : string := replace_from old new 0 s.

Definition nonempty (s : string) : bool :=
  match s with EmptyString => false | _ => true end.

(** [x or y] on strings. *)
Definition or_else (x y : string) : string := if nonempty x then x else y.

(** [s.split()]: the maximal runs of characters that are not whitespace. *)
Fixpoint split_from (word : string) (s : string) : list string :=
  match s with
  | EmptyString => if nonempty word then [word] else []
  | String c s' =>
      if isspace c then
        (if nonempty word then word :: split_from EmptyString s'
         else split_from EmptyString s')
      else split_from (word +:+ String c EmptyString) s'
  end.
Definition split (s : string) : list string := split_from EmptyString s.

(** What it is to split [s] at the first, and at the last, occurrence of
    [sep]: [b], the separator, [a], with no separator in [b], or in [a]. *)
Definition split_at_first (sep : ascii) (s b a : string) : Prop :=
  s = b +:+ String sep a ∧ contains sep b = false.

Definition split_at_last (sep : ascii) (s b a : string) : Prop :=
  s = b +:+ String sep a ∧ contains sep a = false.

Definition first_char (s : string) : option ascii :=
  match s with
  | EmptyString => None
  | String c _ => Some c
  end.

Fixpoint last_char (s : string) : option ascii :=
  match s with
  | EmptyString => None
  | String c EmptyString => Some c
  | String _ s' => last_char s'
  end.

Fixpoint all_in (chars : ascii → bool) (s : string) : bool :=
  match s with
  | EmptyString => true
  | String c s' => chars c && all_in chars s'
  end.

(** What it is for [core] to be [s] without the characters of [chars] that
    surround it. *)
Definition stripped_of (chars : ascii → bool) (s core : string) : Prop :=
  ∃ pre post,
    s = pre +:+ core +:+ post
    ∧ all_in chars pre = true ∧ all_in chars post = true
    ∧ (∀ c, first_char core = Some c → chars c = false)
    ∧ (∀ c, last_char core = Some c → chars c = false).

End PyStr.

(** ** [datetime] and [datetime.strptime] *)

Module PyTime.
Import PyStr.

Record datetime := mk_datetime {
  year : Z; month : Z; day : Z;
  hour : Z; minute : Z; second : Z
}.

(** [int(s)] in base ten: surrounding whitespace, an optional sign, and at
    least one digit. *)
Fixpoint digits_acc (acc : Z) (s : string) : option Z :=
  match s with
  | EmptyString => Some acc
  | String c s' =>
      if isdigit c then digits_acc (10 * acc + (Z.of_N (code c) - 48)) s'
      else None
  end.

Definition py_int (s : string) : option Z :=
  match strip isspace s with
  | EmptyString => None
  | String "-" (String _ _ as d) => Z.opp <$> digits_acc 0 d
  | String "+" (String _ _ as d) => digits_acc 0 d
  | d => digits_acc 0 d
  end.

(** The regular expression [_strptime] builds from a format is a sequence
    of groups, each an ordered alternation of fixed-length sequences of
    character classes.  [re.match] tries the alternatives in order and
    backtracks. *)
Definition cclass := ascii → bool.

Definition lit (c : ascii) : cclass := Ascii.eqb c.
Definition rng (a b : ascii) : cclass :=
  fun c => (code a <=? code c)%N && (code c <=? code b)%N.
Definition digit : cclass := isdigit.

Fixpoint match_alt (a : list cclass) (s : string) : option (string * string) :=
  match a with
  | [] => Some (EmptyString, s)
  | p :: a' =>
      match s with
      | String c s' =>
          if p c then
            match match_alt a' s' with
            | Some (m, r) => Some (String c m, r)
            | None => None
            end
          else None
      | EmptyString => None
      end
  end.

Fixpoint match_groups (gs : list (list (list cclass))) (s : string)
  : option (list string * string) :=
  match gs with
  | [] => Some ([], s)
  | g :: gs' =>
      (fix try (alts : list (list cclass)) : option (list string * string) :=
         match alts with
         | [] => None
         | a :: alts' =>
             match match_alt a s with
             | Some (m, r) =>
                 match match_groups gs' r with
                 | Some (ms, rest) => Some (m :: ms, rest)
                 | None => try alts'
                 end
             | None => try alts'
             end
         end) g
  end.

(** What a match means: the text of each group satisfies, character by
    character, one of the alternatives of the group. *)
Fixpoint alt_matches (a : list cclass) (m : string) : Prop :=
  match a, m with
  | [], EmptyString => True
  | p :: a', String c m' => p c = true ∧ alt_matches a' m'
  | _, _ => False
  end.

Fixpoint joined (ms : list string) : string :=
  match ms with
  | [] => EmptyString
  | m :: ms' => m +:+ joined ms'
  end.

(** The directives of [_strptime.TimeRE]. *)
Definition re_Y := [[digit; digit; digit; digit]].
Definition re_m := [[lit "1"; rng "0" "2"]; [lit "0"; rng "1" "9"]; [rng "1" "9"]].
Definition re_d :=
  [[lit "3"; rng "0" "1"]; [rng "1" "2"; digit]; [lit "0"; rng "1" "9"];
   [rng "1" "9"]; [lit " "; rng "1" "9"]].
Definition re_H := [[lit "2"; rng "0" "3"]; [rng "0" "1"; digit]; [digit]].
Definition re_M := [[rng "0" "5"; digit]; [digit]].
Definition re_S := [[lit "6"; rng "0" "1"]; [rng "0" "5"; digit]; [digit]].

Definition is_leap (y : Z) : bool :=
  (y mod 4 =? 0) && (negb (y mod 100 =? 0) || (y mod 400 =? 0)).

Definition days_in_month (y m : Z) : Z :=
  if m =? 2 then (if is_leap y then 29 else 28)
  else if (m =? 4) || (m =? 6) || (m =? 9) || (m =? 11) then 30
  else 31.

(** The range checks of the [datetime] constructor. *)
Definition valid_datetime (d : datetime) : bool :=
  (1 <=? year d) && (year d <=? 9999)
  && (1 <=? month d) && (month d <=? 12)
  && (1 <=? day d) && (day d <=? days_in_month (year d) (month d))
  && (0 <=? hour d) && (hour d <=? 23)
  && (0 <=? minute d) && (minute d <=? 59)
  && (0 <=? second d) && (second d <=? 59).

(** [datetime.strptime(s, fmt)]: the whole of [s] must match, and the
    fields must form a date that exists. *)
Definition strptime (fmt : list (list (list cclass))) (s : string) : res datetime :=
  match match_groups fmt s with
  | Some (ms, EmptyString) =>
      match (fun m => default 0 (py_int m)) <$> ms with
      | [y; m; d] =>
          let dt := mk_datetime y m d 0 0 0 in
          if valid_datetime dt then Ok dt else Raise ValueError
      | [y; m; d; hh; mm; ss] =>
          let dt := mk_datetime y m d hh mm ss in
          if valid_datetime dt then Ok dt else Raise ValueError
      | _ => Raise ValueError
      end
  | _ => Raise ValueError
  end.

Definition fmt_Ymd := [re_Y; re_m; re_d].
Definition fmt_YmdHMS := [re_Y; re_m; re_d; re_H; re_M; re_S].

(** Comparison of naive datetimes is lexicographic on the fields. *)
Fixpoint lex_lt (a b : list Z) : bool :=
  match a, b with
  | x :: a', y :: b' => (x <? y) || ((x =? y) && lex_lt a' b')
  | _, _ => false
  end.

Definition fields (d : datetime) : list Z :=
  [year d; month d; day d; hour d; minute d; second d].

Definition datetime_lt (a b : datetime) : bool := lex_lt (fields a) (fields b).

Definition same_date (a b : datetime) : Prop :=
  year a = year b ∧ month a = month b ∧ day a = day b.

(** ['%03d' % n]: at least three characters, padded with zeros after the
    sign. *)
Fixpoint zeros (n : nat) : string :=
  match n with
  | O => EmptyString
  | S n' => String "0" (zeros n')
  end.

Definition zfill (width : nat) (s : string) : string :=
  zeros (width - String.length s) +:+ s.

Definition fmt_03d (n : Z) : string :=
  if n <? 0 then String "-" (zfill 2 (pretty (Z.abs n)))
  else zfill 3 (pretty n).

End PyTime.

(** ** DICOM headers

    A pydicom [Dataset] maps element keywords to values.  The value of an
    element is a string, an integer (VR IS), or a list of strings (an
    element of multiplicity above one, such as ImageType). *)

Module Dicom.
Import PyStr.

Inductive value :=
  | VStr (s : string)
  | VInt (n : Z)
  | VMulti (l : list string).

Abbreviation Dataset := (gmap string value).

(** [dcm.get(k)] is [ds !! k], with [None] for Python's [None];
    [dcm.get(k, '')] is [get_or_empty ds k]. *)
Definition get_or_empty (ds : Dataset) (k : string) : value :=
  default (VStr EmptyString) (ds !! k).

(** Truth value of [dcm.get(k)]. *)
Definition truthy (o : option value) : bool :=
  match o with
  | None => false
  | Some (VStr s) => nonempty s
  | Some (VInt n) => negb (n =? 0)
  | Some (VMulti l) => match l with [] => false | _ => true end
  end.

Fixpoint join (sep : string) (l : list string) : string :=
  match l with
  | [] => EmptyString
  | [x] => x
  | x :: l' => x +:+ sep +:+ join sep l'
  end.

(** [str(v)]; the elements of a list are quoted without escapes. *)
Definition py_str (v : value) : string :=
  match v with
  | VStr s => s
  | VInt n => pretty n
  | VMulti l => "[" +:+ join ", " ((fun x => "'" +:+ x +:+ "'") <$> l) +:+ "]"
  end.

(** A string method or a string concatenation applied to something that
    is not a string raises. *)
Definition as_str (e : exn) (o : option value) : res string :=
  match o with
  | Some (VStr s) => Ok s
  | _ => Raise e
  end.

End Dicom.

Import PyStr PyTime Dicom.
Local Open Scope res_scope.

(** ** The network reaper, [scitran/reaper/dicom_net_reaper.py] *)

Module DicomNetReaper.

Definition FILETYPE : string := "dicom".

(** *** [DicomNetReaper.DicomFile] *)

Module DicomFile.

(** The attributes set only under [parse]. *)
Record Parsed := mk_Parsed {
session_uid : option value;
session_timestamp : option datetime;
subject_firstname : option string;
subject_lastname : option string;
subject_firstname_hash : option string;
subject_lastname_hash : option string;
subject_code : option string;
group__id : option string;
project_label : option string;
acquisition_uid : string;
acquisition_timestamp : option datetime;
acquisition_label : option value;
file_type : string
}.

Record t := mk {
patient_id : value;
acq_no : option string;
parsed : option Parsed
}.

Definition GEMS_TYPE_SCREENSHOT := ["DERIVED"; "SECONDARY"; "SCREEN SAVE"].
Definition GEMS_TYPE_VXTL := ["DERIVED"; "SECONDARY"; "VXTL STATE"].

Definition is_screenshot (image_type : option value) : bool :=
match image_type with
| Some (VMulti l) =>
    bool_decide (l = GEMS_TYPE_SCREENSHOT) || bool_decide (l = GEMS_TYPE_VXTL)
| _ => false
end.

Definition parse_patient_name (name : string) : string * string :=
if contains "^" name then
  let '(lastname, _, firstname) := partition "^" name in
  (title (strip isspace firstname), title (strip isspace lastname))
else
  let '(firstname, _, lastname) := rpartition " " name in
  (title (strip isspace firstname), title (strip isspace lastname)).

Definition punct_or_space (c : ascii) : bool := ispunct c || isspace c.

Definition parse_patient_id (patient_id default_subj_code : option string)
: option string * option string * option string :=
match patient_id, default_subj_code with
| Some pid, Some dflt =>
    let '(subj_code, _, lab_info) :=
      rpartition "@" (lower (strip punct_or_space pid)) in
    let '(group_name, _, exp_name) := partition "/" lab_info in
    (Some (or_else subj_code dflt), Some group_name, Some exp_name)
| _, _ => (default_subj_code, None, None)
end.

Definition parse_patient_dob (dob : value) : option datetime :=
match dob with
| VStr s =>
    match strptime fmt_Ymd s with
    | Ok d => if datetime_lt d (mk_datetime 1900 1 1 0 0 0) then None else Some d
    | Raise _ => None
    end
| _ => None
end.

(** [front, back = s.rsplit('.', 1)] *)
Definition rsplit_dot (s : string) : res (string * string) :=
match find_last "." s with
| Some fb => Ok fb
| None => Raise ValueError
end.

(** ['%03dM' % months if months < 960 else '%03dY' % (months/12)] *)
Definition encode_age (months : Z) : string :=
if months <? 960 then fmt_03d months +:+ "M"
else fmt_03d (months / 12) +:+ "Y".

Definition age_in_months (study dob : datetime) : Z :=
12 * (year study - year dob) + (month study - month dob)
- (if day study <? day dob then 1 else 0).

Section Init.

(** [hashlib.sha256(s).hexdigest()], and the timezones and
  [util.localize_timestamp] of the sibling module [util], which is
  not part of the sources at hand. *)
Variable sha256_hexdigest : string → string.
Variable tzinfo : Type.
Variable localize_timestamp : datetime → option tzinfo → datetime.

Definition timestamp (date time : option value) (timezone : option tzinfo)
: res (option datetime) :=
if truthy date && truthy time then
  let? d := as_str TypeError date in
  let? t := as_str TypeError time in
  let? dt := strptime fmt_YmdHMS (d +:+ slice_to 6 t) in
  Ok (Some (localize_timestamp dt timezone))
else Ok None.

Definition hash_of (name : string) : option string :=
if nonempty name then Some (sha256_hexdigest name) else None.

(** The [parse] block of [__init__]; also returns [study_datetime],
  which the de-identification block reads. *)
Definition parse_header (dcm : Dataset) (pid : value) (acq : option string)
  (timezone : option tzinfo) : res (Parsed * option datetime) :=
let series_uid := dcm !! "SeriesInstanceUID" in
let? series_uid :=
  if is_screenshot (dcm !! "ImageType") then
    let? s := as_str AttributeError series_uid in
    let? (front, back) := rsplit_dot s in
    match py_int back with
    | Some n => Ok (Some (VStr (front +:+ "." +:+ pretty (n - 1))))
    | None => Raise ValueError
    end
  else Ok series_uid in
let? study_datetime := timestamp (dcm !! "StudyDate") (dcm !! "StudyTime") timezone in
let? acq_datetime :=
  timestamp (dcm !! "AcquisitionDate") (dcm !! "AcquisitionTime") timezone in
let? name := as_str TypeError (Some (get_or_empty dcm "PatientName")) in
let '(firstname, lastname) := parse_patient_name name in
let? pid_s := as_str AttributeError (Some pid) in
let? dflt := as_str TypeError (Some (get_or_empty dcm "StudyID")) in
let '(code, group, project) := parse_patient_id (Some pid_s) (Some dflt) in
let? uid := as_str TypeError series_uid in
Ok (mk_Parsed
      (dcm !! "StudyInstanceUID")
      study_datetime
      (Some firstname) (Some lastname)
      (hash_of firstname) (hash_of lastname)
      code group project
      (uid +:+ match acq with Some a => "_" +:+ a | None => EmptyString end)
      (match acq_datetime with Some d => Some d | None => study_datetime end)
      (dcm !! "SeriesDescription")
      FILETYPE,
    study_datetime).

(** The de-identification block of [__init__], lines 161-171, on the
  header; the caller blanks the parsed names and saves the result. *)
Definition deidentify (dcm : Dataset) (study_datetime : option datetime)
: res Dataset :=
let? dcm :=
  if truthy (dcm !! "PatientBirthDate") then
    let? dcm :=
      match parse_patient_dob (get_or_empty dcm "PatientBirthDate") with
      | Some dob =>
          match study_datetime with
          | Some study =>
              Ok (<["PatientAge" := VStr (encode_age (age_in_months study dob))]> dcm)
          | None => Raise AttributeError
          end
      | None => Ok dcm
      end in
    Ok (delete "PatientBirthDate" dcm)
  else Ok dcm in
Ok (if truthy (dcm !! "PatientName") then delete "PatientName" dcm else dcm).

Definition blank_names (p : Parsed) : Parsed :=
mk_Parsed (session_uid p) (session_timestamp p) None None
  (subject_firstname_hash p) (subject_lastname_hash p)
  (subject_code p) (group__id p) (project_label p)
  (acquisition_uid p) (acquisition_timestamp p) (acquisition_label p)
  (file_type p).

(** [DicomFile.__init__], given the outcome [file] of
  [dicom.read_file(filepath)].  The result is the object and the
  header as it stands at the end; under [parse] and [anonymize] that
  header is saved back to the file. *)
Definition init (file : res Dataset) (parse anonymize : bool)
  (timezone : option tzinfo) : res (t * Dataset) :=
if negb parse && anonymize then
  Raise (Exception_ "Cannot anonymize DICOM file without parsing")
else
  let? dcm := file in
  let pid := get_or_empty dcm "PatientID" in
  let? manufacturer := as_str AttributeError (dcm !! "Manufacturer") in
  let acq :=
    if negb (String.eqb (upper manufacturer) "SIEMENS") then
      let s := py_str (get_or_empty dcm "AcquisitionNumber") in
      if nonempty s then Some s else None
    else None in
  if parse then
    let? (p, study_datetime) := parse_header dcm pid acq timezone in
    if anonymize then
      let? dcm' := deidentify dcm study_datetime in
      Ok (mk pid acq (Some (blank_names p)), dcm')
    else Ok (mk pid acq (Some p), dcm)
  else Ok (mk pid acq None, dcm).

End Init.

End DicomFile.

(** *** The reaper and its world *)

(** [os.path.join(a, b)] and [os.path.basename(p)] on POSIX. *)
Definition join (a b : string) : string :=
  if startswith "/" b then b
  else match a with
       | EmptyString => b
       | _ => if Ascii.eqb (default "/"%char (last (list_ascii_of_string a))) "/"
              then a +:+ b else a +:+ "/" +:+ b
       end.

Definition basename (p : string) : string := (rpartition "/" p).2.

(** The calls that the reaper makes to the outside, in order: the C-MOVE
    it issues, the archives it asks [util.create_archive] for, the
    peripheral data it asks for and the file times it sets.  What a
    collaborator does in its turn is not an event of the reaper. *)
Inductive event :=
  | Move (series_uid dest : string)
  | CreateArchive (arcdir_path dir_name : string)
  | PeripheralData (prefix log_info : string)
  | Utime (path : string) (time : Z).

(** The names that [os.listdir] of the temporary directory answers once
    the series is transferred, the files by path (a file that is not
    DICOM holds no header), the directories below the temporary
    directory by path, and the events so far. *)
Record world := mk_world {
  listing : list string;
  contents : gmap string (option Dataset);
  dirs : gset string;
  trace : list event
}.

Definition M (A : Type) : Type := world → world * res A.

Definition ret {A} (a : A) : M A := fun w => (w, Ok a).
Definition raise {A} (e : exn) : M A := fun w => (w, Raise e).
Definition bind {A B} (m : M A) (k : A → M B) : M B :=
  fun w =>
    match m w with
    | (w', Ok a) => k a w'
    | (w', Raise e) => (w', Raise e)
    end.
Definition emit (e : event) : M unit :=
  fun w => (mk_world (listing w) (contents w) (dirs w) (trace w ++ [e]), Ok tt).

Notation "'let!' x ':=' m 'in' k" := (bind m (fun x => k))
  (at level 10, x pattern, m at level 100, k at level 200).

(** The series a query reports: [item['state']]. *)
Record State := mk_State { images : Z; patient_id : string }.
Record ReaperItem := mk_ReaperItem { state : State }.

(** One record of the SCU's answer to a series-level find. *)
Record SeriesRecord := mk_SeriesRecord {
  SeriesInstanceUID : string;
  NumberOfSeriesRelatedInstances : string;
  PatientID : string
}.

Fixpoint query_records (scu_resp : list SeriesRecord)
    (i_state : gmap string ReaperItem) : res (gmap string ReaperItem) :=
  match scu_resp with
  | [] => Ok i_state
  | r :: rest =>
      match py_int (NumberOfSeriesRelatedInstances r) with
      | Some n =>
          query_records rest
            (<[SeriesInstanceUID r := mk_ReaperItem (mk_State n (PatientID r))]> i_state)
      | None => Raise ValueError
      end
  end.

(** [instrument_query], given the answer [scu_resp] of [self.scu.find];
    the result [None] is Python's [None]. *)
Definition instrument_query (scu_resp : list SeriesRecord)
  : res (option (gmap string ReaperItem)) :=
  let? i_state := query_records scu_resp ∅ in
  Ok (if bool_decide (i_state = ∅) then None else Some i_state).

(** [dcm_dict.setdefault(k, []).append(v)], keys in order of first use. *)
Fixpoint setdefault_append (k : option string) (v : string)
    (d : list (option string * list string)) : list (option string * list string) :=
  match d with
  | [] => [(k, [v])]
  | (k', vs) :: d' =>
      if bool_decide (k = k') then (k', vs ++ [v]) :: d'
      else (k', vs) :: setdefault_append k v d'
  end.

Section Reaper.

Variable sha256_hexdigest : string → string.
Variable tzinfo : Type.
Variable localize_timestamp : datetime → option tzinfo → datetime.

(** [re.match(pattern, s) is not None]. *)
Variable re_match : string → string → bool.

(** [self.metadata] lives in the base class, [util.create_archive] in
    the sibling module; neither is part of the sources at hand.
    [create_archive] gives the path of the archive built; the request
    for the archive is an event, the archive is not among the files of
    the world. *)
Variable Metadata : Type.
Variable metadata : DicomFile.t → Metadata.
Variable create_archive : string → string → string.

(** The SCU: what a C-MOVE of a series reports (success, number of
    images) and the files it stores. *)
Variable scu_move : string → bool * Z * list (string * option Dataset).

(** [int(t.strftime('%s'))], the C library's seconds since the epoch of
    a time in the local zone. *)
Variable epoch_seconds : datetime → Z.

(** [self.reap_peripheral_data(tempdir, dcm, prefix, log_info)] of the
    base class: whatever it does to the files, and it may raise. *)
Variable reap_peripheral_data : string → DicomFile.t → string → string → M unit.

Record reaper := mk_reaper {
  anonymize : bool;
  whitelist : string;
  blacklist : list string;
  timezone : option tzinfo
}.

(** [__init__] on the options [anonymize], [whitelist], [blacklist]. *)
Definition init (opt_anonymize : bool) (opt_whitelist opt_blacklist : string)
    (tz : option tzinfo) : reaper :=
  mk_reaper opt_anonymize (replace "*" ".*" opt_whitelist) (split opt_blacklist) tz.

Definition is_desired_patient_id (self : reaper) (_id : string) : bool :=
  if negb (re_match (whitelist self) _id) then false
  else if bool_decide (lower (strip (Ascii.eqb "/") _id) ∈ blacklist self) then false
  else true.

(** [self.scu.move(SeriesQuery(...), tempdir)] *)
Definition move (_id tempdir : string) : M (bool * Z) :=
  fun w =>
    let '(success, reap_cnt, stored) := scu_move _id in
    (mk_world
       (listing w ++ stored.*1)
       (foldl (fun c f => <[join tempdir f.1 := f.2]> c) (contents w) stored)
       (dirs w)
       (trace w ++ [Move _id tempdir]),
     Ok (success, reap_cnt)).

Definition listdir : M (list string) := fun w => (w, Ok (listing w)).

Definition rename (src dst : string) : M unit :=
  fun w =>
    match contents w !! src with
    | Some f =>
        (mk_world (listing w) (<[dst := f]> (delete src (contents w))) (dirs w)
           (trace w),
         Ok tt)
    | None => (w, Raise IOError)
    end.

(** [os.mkdir(path)] below the temporary directory, which is there:
    [OSError] when a file or a directory is at the path already. *)
Definition mkdir (path : string) : M unit :=
  fun w =>
    if bool_decide (path ∈ dirs w) || bool_decide (is_Some (contents w !! path))
    then (w, Raise (Exception_ "OSError"))
    else (mk_world (listing w) (contents w) ({[path]} ∪ dirs w) (trace w), Ok tt).

(** [os.utime(path, (time, time))]: [OSError] when nothing is at the
    path. *)
Definition utime (path : string) (time : Z) : M unit :=
  fun w =>
    if bool_decide (is_Some (contents w !! path)) || bool_decide (path ∈ dirs w)
    then emit (Utime path time) w
    else (w, Raise (Exception_ "OSError")).

(** Whether [path] lies somewhere below the directory [dir]. *)
Definition inside (dir path : string) : bool := startswith (dir +:+ "/") path.

(** [shutil.rmtree(path)]: the directory goes with all that is below it;
    [OSError] when there is no such directory. *)
Definition rmtree (path : string) : M unit :=
  fun w =>
    if bool_decide (path ∈ dirs w) then
      (mk_world (listing w)
         (filter (fun f => inside path f.1 = false) (contents w))
         (filter (fun d => inside path d = false) (dirs w ∖ {[path]}))
         (trace w),
       Ok tt)
    else (w, Raise (Exception_ "OSError")).

(** [self.DicomFile(filepath, parse, anonymize, timezone)] *)
Definition DicomFile_new (filepath : string) (parse anon : bool)
    (tz : option tzinfo) : M DicomFile.t :=
  fun w =>
    let file :=
      match contents w !! filepath with
      | Some (Some dcm) => Ok dcm
      | _ => Raise IOError
      end in
    match DicomFile.init sha256_hexdigest tzinfo localize_timestamp file parse anon tz with
    | Ok (f, dcm') =>
        (if parse && anon
         then mk_world (listing w) (<[filepath := Some dcm']> (contents w)) (dirs w)
                (trace w)
         else w,
         Ok f)
    | Raise e => (w, Raise e)
    end.

Fixpoint inspect (filepaths : list string)
    (dcm_dict : list (option string * list string))
  : M (list (option string * list string)) :=
  match filepaths with
  | [] => ret dcm_dict
  | filepath :: rest =>
      let! dcm := DicomFile_new filepath false false None in
      inspect rest (setdefault_append (DicomFile.acq_no dcm) filepath dcm_dict)
  end.

(** The inner loop of [split_into_acquisitions], lines 114-121; [dcm] is
    the file parsed last.  [strftime] on a missing timestamp raises. *)
Fixpoint place (self : reaper) (arcdir_path : string) (acq_paths : list string)
    (dcm : option DicomFile.t) : M (option DicomFile.t) :=
  match acq_paths with
  | [] => ret dcm
  | filepath :: rest =>
      let! dcm := DicomFile_new filepath true (anonymize self) (timezone self) in
      let filename := basename filepath in
      let filename :=
        if startswith "(none)" filename then replace "(none)" "NA" filename
        else filename in
      match DicomFile.parsed dcm ≫= DicomFile.acquisition_timestamp with
      | None => raise AttributeError
      | Some acquisition_timestamp =>
          let! _ := utime filepath (epoch_seconds acquisition_timestamp) in
          let! _ := rename filepath (join arcdir_path filename +:+ ".dcm") in
          place self arcdir_path rest (Some dcm)
      end
  end.

Record AcqInfo := mk_AcqInfo {
  acq_dcm : DicomFile.t;
  acq_metadata : Metadata;
  acq_prefix : string;
  acq_log_info : string
}.

Fixpoint archive_groups (self : reaper) (_id path : string)
    (groups : list (option string * list string))
    (acq_map : gmap string AcqInfo) : M (gmap string AcqInfo) :=
  match groups with
  | [] => ret acq_map
  | (acq_no, acq_paths) :: rest =>
      let name_prefix :=
        _id +:+ match acq_no with Some a => "_" +:+ a | None => EmptyString end in
      let dir_name := name_prefix +:+ "_" +:+ "dicom" in
      let arcdir_path := join path dir_name in
      let! _ := mkdir arcdir_path in
      let! last := place self arcdir_path acq_paths None in
      match last with
      | None => raise (Exception_ "NameError")
      | Some dcm =>
          let md := metadata dcm in
          let! _ := emit (CreateArchive arcdir_path dir_name) in
          let arc_path := create_archive arcdir_path dir_name in
          let! _ := rmtree arcdir_path in
          let log_info :=
            _id +:+ match acq_no with Some a => "." +:+ a | None => EmptyString end in
          archive_groups self _id path rest
            (<[basename arc_path := mk_AcqInfo dcm md name_prefix log_info]> acq_map)
      end
  end.

(** The groups are visited in the order in which their acquisition
    numbers first occur; Python leaves the order of a dictionary open. *)
Definition split_into_acquisitions (self : reaper) (_id path : string)
    (filepaths : list string) : M (gmap string AcqInfo) :=
  let! dcm_dict := inspect filepaths [] in
  archive_groups self _id path dcm_dict ∅.

(** The call of [self.reap_peripheral_data]: the event of the call, and
    what the collaborator makes of the files. *)
Definition peripheral_call (tempdir : string) (acq_info : AcqInfo) : M unit :=
  fun w =>
    let '(w', r) :=
      reap_peripheral_data tempdir (acq_dcm acq_info) (acq_prefix acq_info)
        (acq_log_info acq_info) w in
    (mk_world (listing w') (contents w') (dirs w')
       (trace w ++ [PeripheralData (acq_prefix acq_info) (acq_log_info acq_info)]),
     r).

(** The loop of [reap] over the archives, lines 85-87. *)
Fixpoint peripheral (tempdir : string) (acqs : list (string * AcqInfo))
    (metadata_map : gmap string Metadata) : M (gmap string Metadata) :=
  match acqs with
  | [] => ret metadata_map
  | (acq_filename, acq_info) :: rest =>
      let! _ := peripheral_call tempdir acq_info in
      peripheral tempdir rest (<[acq_filename := acq_metadata acq_info]> metadata_map)
  end.

(** The check of the patient id read from the first file retrieved:
    whether [reap] goes on after it. *)
Definition recheck (self : reaper) (success : bool) (reap_cnt : Z)
    (filepaths : list string) : M bool :=
  if success && (0 <? reap_cnt) then
    match filepaths with
    | [] => raise IndexError
    | filepath :: _ =>
        let! dcm := DicomFile_new filepath false false None in
        match DicomFile.patient_id dcm with
        | VStr pid => ret (is_desired_patient_id self pid)
        | _ => raise TypeError
        end
    end
  else ret true.

(** [reap]: the outcome is [None], [Some true] or [Some false] for
    Python's [None], [True] and [False]. *)
Definition reap (self : reaper) (_id : string) (item : ReaperItem)
    (tempdir : string) : M (option bool * gmap string Metadata) :=
  if images (state item) =? 0 then ret (None, ∅)
  else if nonempty (patient_id (state item))
          && negb (is_desired_patient_id self (patient_id (state item)))
  then ret (None, ∅)
  else
    let! (success, reap_cnt) := move _id tempdir in
    let! names := listdir in
    let filepaths := join tempdir <$> names in
    let! desired := recheck self success reap_cnt filepaths in
    if negb desired then ret (None, ∅)
    else if success && (reap_cnt =? images (state item)) then
      let! acq_map := split_into_acquisitions self _id tempdir filepaths in
      let! metadata_map := peripheral tempdir (map_to_list acq_map) ∅ in
      ret (Some true, metadata_map)
    else ret (Some false, ∅).

End Reaper.

End DicomNetReaper.

(** ** The file reaper, [reaper/dicom_file_reaper.py] *)

Module DicomFileReaper.

(** What [json.load] yields, with date and time strings decoded by the
    object hook. *)
Inductive jvalue :=
  | JStr (s : string)
  | JInt (n : Z)
  | JDatetime (d : datetime)
  | JNull.

Inductive json :=
  | JObject (m : gmap string jvalue)
  | JArray (l : list jvalue)
  | JScalar (v : jvalue).

(** A file is known by what the reaper observes of it: its name, its size
    ([None] when [os.path.getsize] raises), whether [dicom.read_file]
    accepts it, and what [json.load] makes of it ([None] when it raises). *)
Record file := mk_file {
  f_name : string;
  f_size : option Z;
  f_dicom : bool;
  f_json : option json
}.

(** A directory: its name, its modification time ([None] when
    [os.path.getmtime] raises), its subdirectories and its files. *)
#[warnings="-register-all"] Inductive dir :=
  | Dir (name : string) (mtime : option Z) (dirs : list dir) (files : list file).

Definition d_name (d : dir) : string := let 'Dir n _ _ _ := d in n.
Definition d_mtime (d : dir) : option Z := let 'Dir _ t _ _ := d in t.
Definition d_dirs (d : dir) : list dir := let 'Dir _ _ ds _ := d in ds.
Definition d_files (d : dir) : list file := let 'Dir _ _ _ fs := d in fs.

Definition join := DicomNetReaper.join.
Definition basename := DicomNetReaper.basename.

(** [os.walk(top)], top down: a directory, then its subdirectories in
    turn, each with its path. *)
Fixpoint walk (dirpath : string) (d : dir) : list (string * dir) :=
  match d with
  | Dir _ _ ds _ =>
      (dirpath, d)
        :: (fix subdirs (l : list dir) : list (string * dir) :=
              match l with
              | [] => []
              | sub :: l' => walk (join dirpath (d_name sub)) sub ++ subdirs l'
              end) ds
  end.

Record State := mk_State { mod_time : Z; file_cnt : Z; size : Z }.
Record ReaperItem := mk_ReaperItem { state : State; path : string }.

(** [sum([os.path.getsize(...) for fn in filenames])]; the first failure
    raises. *)
Fixpoint total_size (filenames : list file) : option Z :=
  match filenames with
  | [] => Some 0
  | f :: rest =>
      match f_size f, total_size rest with
      | Some n, Some m => Some (n + m)
      | _, _ => None
      end
  end.

Definition stat_state (d : dir) : option State :=
  match d_mtime d, total_size (d_files d) with
  | Some t, Some sz => Some (mk_State t (Z.of_nat (length (d_files d))) sz)
  | _, _ => None
  end.

(** The body of the loop of [instrument_query].  Without symbolic links,
    [os.path.samefile(dirpath, self.path)] holds of the top only. *)
Definition visit (self_path : string) (i_state : gmap string ReaperItem)
    (entry : string * dir) : gmap string ReaperItem :=
  let '(dirpath, d) := entry in
  if startswith "." (basename dirpath) then i_state
  else if String.eqb dirpath self_path then i_state
  else if bool_decide (d_dirs d = []) && negb (bool_decide (d_files d = [])) then
    match stat_state d with
    | Some st => <[dirpath := mk_ReaperItem st dirpath]> i_state
    | None => i_state
    end
  else i_state.

Definition instrument_query (self_path : string) (root : dir)
  : gmap string ReaperItem :=
  foldl (visit self_path) ∅ (walk self_path root).

(** *** [reap] *)

Definition is_sidecar (fn : string) : bool :=
  String.eqb fn "metadata.json" || String.eqb fn "METADATA.json".

Record archive := mk_archive {
  arc_path : string;
  arc_dir : string;
  arc_name : string;
  arc_files : list string;
  arc_metadata : gmap string jvalue
}.

(** The loop over [os.listdir(item['path'])]: [reap_dir] are the files
    copied to [reap_path] so far, [moved] is the file at [metadata_path]. *)
Fixpoint reap_files (listing : list file) (reap_cnt : Z) (reap_dir : list string)
    (moved : option file) : Z * list string * option file :=
  match listing with
  | [] => (reap_cnt, reap_dir, moved)
  | f :: rest =>
      if is_sidecar (f_name f) then reap_files rest reap_cnt reap_dir (Some f)
      else if f_dicom f then
        reap_files rest (reap_cnt + 1) (reap_dir ++ [f_name f]) moved
      else reap_files rest reap_cnt reap_dir moved
  end.

(** [metadata = {}], replaced by the sidecar when there is one. *)
Definition load_metadata (moved : option file) : res json :=
  match moved with
  | None => Ok (JObject ∅)
  | Some f =>
      match f_json f with
      | Some j => Ok j
      | None => Raise ValueError
      end
  end.

(** [metadata['filetype'] = 'dicom'] *)
Definition set_filetype (metadata : json) : res (gmap string jvalue) :=
  match metadata with
  | JObject m => Ok (<["filetype" := JStr "dicom"]> m)
  | _ => Raise TypeError
  end.

(** [reap], given the listing of the item's directory: what it returns and
    the archive it has [util.create_archive] build. *)
Definition reap (_id : string) (item : ReaperItem) (tempdir : string)
    (listing : list file) : res (bool * archive) :=
  let reap_path := tempdir +:+ "/" +:+ "reap" in
  let '(reap_cnt, reap_dir, moved) := reap_files listing 0 [] None in
  let? metadata := load_metadata moved in
  let? metadata := set_filetype metadata in
  Ok (true, mk_archive (reap_path +:+ ".zip") reap_path (basename reap_path)
              reap_dir metadata).

(** A snapshot without dot directories: no item's path ends in a name
    that begins with a dot. *)
Definition dot_free (i_state : gmap string ReaperItem) : Prop :=
  ∀ dirpath, startswith "." (basename dirpath) = true → i_state !! dirpath = None.

(** The files of a listing that [reap] is to archive, those that are not
    sidecars and that [dicom.read_file] accepts, and the sidecar that ends
    up at [metadata_path], the last one listed. *)
Definition data_files (listing : list file) : list file :=
  List.filter (fun f => negb (is_sidecar (f_name f)) && f_dicom f) listing.

Definition last_sidecar (listing : list file) : option file :=
  last (List.filter (fun f => is_sidecar (f_name f)) listing).

End DicomFileReaper.

(** ** Collaborators and sample data to run the reapers on *)

Module Examples.
Import DicomNetReaper.

(** A digest that marks its argument, and a localization that, as
    [pytz]'s [localize] does, keeps the wall-clock fields. *)
Definition digest (s : string) : string := "sha256:" +:+ s.
Definition localize (d : datetime) (tz : option unit) : datetime := d.

(** [re.match] for the patterns that a glob of ordinary characters and
    stars becomes: ordinary characters and [.*] (any characters but the
    newline).  The match is anchored at the start only. *)
Inductive token :=
  | Lit (c : ascii)
  | AnyStar.

Fixpoint tokens (pattern : string) : list token :=
  match pattern with
  | EmptyString => []
  | String "." (String "*" p) => AnyStar :: tokens p
  | String c p => Lit c :: tokens p
  end.

Fixpoint match_tokens (ts : list token) (s : string) : bool :=
  match ts with
  | [] => true
  | Lit c :: ts' =>
      match s with
      | String d s' => Ascii.eqb c d && match_tokens ts' s'
      | EmptyString => false
      end
  | AnyStar :: ts' =>
      (fix star (s : string) : bool :=
         match_tokens ts' s
         || match s with
            | String d s' => negb (Ascii.eqb d "010") && star s'
            | EmptyString => false
            end) s
  end.

Definition re_match (pattern s : string) : bool := match_tokens (tokens pattern) s.

(** The record is a label of the acquisition, the archive is named after
    its directory. *)
Definition metadata (dcm : DicomFile.t) : string :=
  match DicomFile.parsed dcm with
  | Some p => DicomFile.acquisition_uid p
  | None => EmptyString
  end.
Definition create_archive (arcdir_path dir_name : string) : string :=
  arcdir_path +:+ ".tgz".

Definition header (patient_id patient_name : string) : Dataset :=
  list_to_map [
    ("Manufacturer", VStr "GE MEDICAL SYSTEMS");
    ("PatientID", VStr patient_id);
    ("PatientName", VStr patient_name);
    ("PatientBirthDate", VStr "19900101");
    ("StudyInstanceUID", VStr "1.2");
    ("StudyID", VStr "7");
    ("StudyDate", VStr "20200101");
    ("StudyTime", VStr "093000.000");
    ("SeriesInstanceUID", VStr "1.2.3");
    ("SeriesDescription", VStr "T1w");
    ("AcquisitionNumber", VInt 1)
  ].

Definition jane := header "abc123@labX/projY" "Doe^Jane".
Definition nameless := header "abc123@labX/projY" EmptyString.

Definition images_of (n : nat) (dcm : Dataset) : list (string * option Dataset) :=
  (fun i => (pretty i +:+ ".dcm", Some dcm)) <$> seq 0 n.

(** A C-MOVE that delivers [n] images of [dcm]. *)
Definition scu_delivers (n : nat) (dcm : Dataset) (_id : string)
  : bool * Z * list (string * option Dataset) :=
  (true, Z.of_nat n, images_of n dcm).

Definition empty_world : world := mk_world [] ∅ ∅ [].

(** The seconds since the epoch of a time, in a local zone that is UTC:
    the days since 1970-01-01 of the civil date, and the time of day. *)
Definition days_from_civil (y m d : Z) : Z :=
  let y := if m <=? 2 then y - 1 else y in
  let era := y / 400 in
  let yoe := y - era * 400 in
  let doy := (153 * (if 2 <? m then m - 3 else m + 9) + 2) / 5 + d - 1 in
  let doe := yoe * 365 + yoe / 4 - yoe / 100 + doy in
  era * 146097 + doe - 719468.

Definition epoch (t : datetime) : Z :=
  days_from_civil (year t) (month t) (day t) * 86400
  + hour t * 3600 + minute t * 60 + second t.

(** A peripheral reaper that leaves a log, which is not DICOM, in the
    temporary directory. *)
Definition physio (tempdir : string) (dcm : DicomFile.t) (prefix log_info : string)
  : M unit :=
  fun w =>
    (mk_world (listing w)
       (<[join tempdir (prefix +:+ "_physio.log") := None]> (contents w))
       (dirs w) (trace w),
     Ok tt).

(** The reaper with its default options but for the whitelist. *)
Definition reaper_for (opt_whitelist : string) : reaper unit :=
  init unit true opt_whitelist "discard" None.

Definition run_reap (opt_whitelist : string)
    (scu_move : string → bool * Z * list (string * option Dataset))
    (declared_images : Z) (declared_patient_id : string) :=
  reap digest unit localize re_match string metadata create_archive scu_move
    epoch physio (reaper_for opt_whitelist) "1.2.3"
    (mk_ReaperItem (mk_State declared_images declared_patient_id))
    "/tmp/reap" empty_world.

Import DicomFileReaper.

Definition valid (fn : string) : file := mk_file fn (Some 512) true None.
Definition corrupt (fn : string) : file := mk_file fn (Some 17) false None.
Definition sidecar (m : gmap string jvalue) : file :=
  mk_file "metadata.json" (Some 40) false (Some (JObject m)).

(** A watched root with a leaf directory under a dot directory. *)
Definition hidden_tree : dir :=
  Dir "data" (Some 100) [
    Dir ".cache" (Some 100) [
      Dir "series1" (Some 100) [] [valid "a.dcm"]
    ] [];
    Dir ".trash" (Some 100) [] [valid "b.dcm"]
  ] [].

Definition an_item : ReaperItem := mk_ReaperItem (mk_State 100 4 1553) "/data/s1".

End Examples.

(** ** The constructor of the file reaper *)

Module DicomFileReaperInit.

(** [self.path.strip('/').replace('/', '_')], the id handed to the base
    class. *)
Definition reaper_id (path : string) : string :=
  replace "/" "_" (strip (Ascii.eqb "/") path).

(** [DicomFileReaper.__init__], given what the operating system answers:
    [os.path.exists(path)], [os.path.isdir(path)], and the outcome of
    [os.mkdir(path)] if it is called.  The result is the id with which
    the constructor of the base class is called; [sys.exit(1)] raises
    [SystemExit]. *)
Definition init (path : string) (path_exists path_isdir : bool) (mkdir : res unit)
  : res string :=
  if negb path_exists then
    let? _ := mkdir in
    Ok (reaper_id path)
  else if negb path_isdir then Raise (Exception_ "SystemExit: 1")
  else Ok (reaper_id path).

End DicomFileReaperInit.

(** ** Notions to state further properties with *)

Module Notions.
Import DicomNetReaper.



(** A header that names neither the patient nor the birth date. *)
Definition clean (dcm : Dataset) : Prop :=
  truthy (dcm !! "PatientBirthDate") = false ∧ truthy (dcm !! "PatientName") = false.


(** Python's [string.whitespace], [string.punctuation] and
    [string.ascii_uppercase], character by character. *)
Definition string_whitespace : string :=
  String "009" (String "010" (String "011" (String "012" (String "013" " ")))).

Definition string_punctuation : string :=
  "!" +:+ String "034" "#$%&'()*+,-./:;<=>?@[\]^_`{|}~".

Definition ascii_uppercase : string := "ABCDEFGHIJKLMNOPQRSTUVWXYZ".
Definition ascii_lowercase : string := "abcdefghijklmnopqrstuvwxyz".

Definition among (chars : string) (c : ascii) : bool :=
  existsb (Ascii.eqb c) (list_ascii_of_string chars).

(** A string is title-cased when each of its upper-case letters starts
    it or follows a character that is not a letter, and each of its
    lower-case letters follows a letter. *)
Definition letter (c : ascii) : bool :=
  among ascii_uppercase c || among ascii_lowercase c.

Fixpoint title_cased_from (after_letter : bool) (s : string) : bool :=
  match s with
  | EmptyString => true
  | String c s' =>
      (if after_letter then negb (among ascii_uppercase c)
       else negb (among ascii_lowercase c))
      && title_cased_from (letter c) s'
  end.

Definition title_cased (s : string) : Prop := title_cased_from false s = true.

(** Two characters that are equal, or one letter in its two cases, and
    two strings that are equal but for the case of their letters. *)
Definition same_letter (c d : ascii) : bool :=
  Ascii.eqb c d
  || existsb (fun ul => (Ascii.eqb c ul.1 && Ascii.eqb d ul.2)
                        || (Ascii.eqb c ul.2 && Ascii.eqb d ul.1))
       (combine (list_ascii_of_string ascii_uppercase)
          (list_ascii_of_string ascii_lowercase)).

Fixpoint same_but_case (s t : string) : bool :=
  match s, t with
  | EmptyString, EmptyString => true
  | String c s', String d t' => same_letter c d && same_but_case s' t'
  | _, _ => false
  end.

Definition no_uppercase (s : string) : bool :=
  all_in (fun c => negb (among ascii_uppercase c)) s.


Definition no_upper (s : string) : Prop := all_in (fun c => negb (isupper c)) s = true.

(** The item a record of the find answer stands for, and the records of
    a series. *)
Definition item_of (r : SeriesRecord) : ReaperItem :=
  mk_ReaperItem
    (mk_State (default 0 (py_int (NumberOfSeriesRelatedInstances r))) (PatientID r)).

Definition records_of (uid : string) (scu_resp : list SeriesRecord) : list SeriesRecord :=
  filter (fun r => SeriesInstanceUID r = uid) scu_resp.

Definition is_move (e : event) : bool :=
  match e with
  | Move _ _ => true
  | _ => false
  end.

(** A computation that adds to the trace only events that are not moves. *)
Definition moves_nothing {A} (m : M A) : Prop :=
  ∀ w, ∃ evs, trace (m w).1 = trace w ++ evs
              ∧ forallb (fun e => negb (is_move e)) evs = true.

(** The outcome [reap] returns, if it returns. *)
Definition outcome_of {A} (r : res (option bool * A)) : option (option bool) :=
  match r with
  | Ok (o, _) => Some o
  | Raise _ => None
  end.

Section Grouping.

Variable sha256_hexdigest : string → string.
Variable tzinfo : Type.
Variable localize_timestamp : datetime → option tzinfo → datetime.

(** The acquisition number under which [split_into_acquisitions] files a
    path. *)
Definition acq_no_at (w : world) (filepath : string) : option (option string) :=
  match DicomFile_new sha256_hexdigest tzinfo localize_timestamp
          filepath false false None w with
  | (_, Ok dcm) => Some (DicomFile.acq_no dcm)
  | (_, Raise _) => None
  end.

Definition grouped_by_acq_no (w : world) (groups : list (option string * list string))
  : Prop :=
  ∀ k paths, (k, paths) ∈ groups → ∀ fp, fp ∈ paths → acq_no_at w fp = Some k.

End Grouping.


(** Induction on a directory with the property at hand for its
    subdirectories. *)
Fixpoint dir_ind_nested (P : DicomFileReaper.dir → Prop)
    (step : ∀ name mtime dirs files,
        Forall P dirs → P (DicomFileReaper.Dir name mtime dirs files))
    (d : DicomFileReaper.dir) : P d :=
  match d with
  | DicomFileReaper.Dir name mtime dirs files =>
      step name mtime dirs files
        ((fix all (l : list DicomFileReaper.dir) : Forall P l :=
            match l with
            | [] => @List.Forall_nil DicomFileReaper.dir P
            | sub :: l' =>
                @List.Forall_cons DicomFileReaper.dir P sub l'
                  (dir_ind_nested P step sub) (all l')
            end) dirs)
  end.

(** What it is for an item of the snapshot to stand for a leaf directory
    of the walk. *)
Definition leaf_item (self_path : string) (entries : list (string * DicomFileReaper.dir))
    (k : string) (item : DicomFileReaper.ReaperItem) : Prop :=
  DicomFileReaper.path item = k ∧ k ≠ self_path
  ∧ startswith "." (DicomFileReaper.basename k) = false
  ∧ ∃ d, (k, d) ∈ entries ∧ DicomFileReaper.d_dirs d = []
         ∧ DicomFileReaper.d_files d ≠ []
         ∧ DicomFileReaper.stat_state d = Some (DicomFileReaper.state item).

(** More sample data. *)
Definition siemens_header : Dataset :=
  <["Manufacturer" := VStr "Siemens"]> Examples.jane.

Definition born_1899 : Dataset :=
  <["PatientBirthDate" := VStr "18991231"]> Examples.jane.

Definition undated : Dataset := delete "StudyTime" Examples.jane.

Definition find_answer : list SeriesRecord :=
  [mk_SeriesRecord "1.2.3" "5" "abc123@labX/projY";
   mk_SeriesRecord "1.2.4" " 12 " EmptyString;
   mk_SeriesRecord "1.2.3" "7" "abc123@labX/projY"].

(** The world once three images of Jane have been moved. *)
Definition moved_world : world :=
  (move (Examples.scu_delivers 3 Examples.jane) "1.2.3" "/tmp/reap"
     Examples.empty_world).1.

End Notions.

(** * Properties *)

(** ** Splitting strings *)

Module PyStrFacts.

#[local] Arguments String.append !_ _ / : simpl nomatch.

Lemma contains_false_cons sep c s :
  contains sep (String c s) = false → Ascii.eqb c sep = false ∧ contains sep s = false.
Proof. simpl. intros H. by apply orb_false_elim in H. Qed.

Lemma find_first_Some sep s b a :
  find_first sep s = Some (b, a) → split_at_first sep s b a.
Proof.
  revert b. induction s as [|c s IH]; intros b; simpl; [done|].
  destruct (Ascii.eqb c sep) eqn:Hc.
  - intros [= <- <-]. apply Ascii.eqb_eq in Hc as ->. by split.
  - destruct (find_first sep s) as [[b' a']|] eqn:Hf; [|done].
    intros [= <- <-]. destruct (IH b' eq_refl) as [-> Hb].
    split; [done|]. simpl. by rewrite Hc.
Qed.

Lemma find_first_None sep s :
  find_first sep s = None → contains sep s = false.
Proof.
  induction s as [|c s IH]; simpl; [done|].
  destruct (Ascii.eqb c sep); [done|].
  destruct (find_first sep s) as [[??]|]; [done|]. intros _. by apply IH.
Qed.

Lemma find_last_None sep s :
  find_last sep s = None ↔ contains sep s = false.
Proof.
  induction s as [|c s IH]; simpl; [done|].
  destruct (find_last sep s) as [[??]|].
  - split; [done|]. intros [_ H]%orb_false_elim. by apply IH in H.
  - destruct (Ascii.eqb c sep); simpl; [done|]. split; [|done]. intros _. by apply IH.
Qed.

Lemma find_last_Some sep s b a :
  find_last sep s = Some (b, a) → split_at_last sep s b a.
Proof.
  revert b. induction s as [|c s IH]; intros b; simpl; [done|].
  destruct (find_last sep s) as [[b' a']|] eqn:Hf.
  - intros [= <- <-]. destruct (IH b' eq_refl) as [-> Ha]. by split.
  - destruct (Ascii.eqb c sep) eqn:Hc; [|done].
    intros [= <- <-]. apply Ascii.eqb_eq in Hc as ->.
    split; [done|]. by apply find_last_None.
Qed.

(** The splits are unique, so they determine what the code computes. *)
Lemma split_at_first_find sep s b a :
  split_at_first sep s b a → find_first sep s = Some (b, a).
Proof.
  intros [-> Hb]. induction b as [|c b IH]; simpl.
  - by rewrite Ascii.eqb_refl.
  - apply contains_false_cons in Hb as [-> Hb]. by rewrite IH.
Qed.

Lemma split_at_last_find sep s b a :
  split_at_last sep s b a → find_last sep s = Some (b, a).
Proof.
  intros [-> Ha]. induction b as [|c b IH]; simpl.
  - apply find_last_None in Ha as ->. by rewrite Ascii.eqb_refl.
  - by rewrite IH.
Qed.

Lemma append_empty_r s : s +:+ EmptyString = s.
Proof. induction s as [|c s IH]; simpl; congruence. Qed.

Lemma append_assoc a b c : (a +:+ b) +:+ c = a +:+ b +:+ c.
Proof. induction a as [|x a IH]; simpl; congruence. Qed.

Lemma last_char_append pre s c :
  last_char s = Some c → last_char (pre +:+ s) = Some c.
Proof.
  intros H. induction pre as [|x pre IH]; simpl; [done|].
  rewrite IH. destruct (pre +:+ s) eqn:E; [|done].
  destruct pre, s; simplify_eq/=.
Qed.

Lemma lstrip_spec chars s :
  ∃ pre, s = pre +:+ lstrip chars s ∧ all_in chars pre = true
         ∧ ∀ c, first_char (lstrip chars s) = Some c → chars c = false.
Proof.
  induction s as [|c s (pre & Hs & Hpre & Hfirst)]; simpl.
  - by exists EmptyString.
  - destruct (chars c) eqn:Hc.
    + exists (String c pre). simpl. rewrite Hc, Hpre. split; [congruence|done].
    + exists EmptyString. repeat split; [].
      simpl. by intros ? [= <-].
Qed.

Lemma rstrip_spec chars s :
  ∃ post, s = rstrip chars s +:+ post ∧ all_in chars post = true
          ∧ ∀ c, last_char (rstrip chars s) = Some c → chars c = false.
Proof.
  induction s as [|c s (post & Hs & Hpost & Hlast)]; simpl.
  - by exists EmptyString.
  - destruct (rstrip chars s) as [|d r] eqn:Hr.
    + simpl in Hs. subst s. destruct (chars c) eqn:Hc.
      * exists (String c post). simpl. by rewrite Hc, Hpost.
      * exists post. repeat split; [done|]. simpl. by intros ? [= <-].
    + exists post. split; [simpl in *; congruence|]. split; [done|].
      intros x Hx. apply Hlast. exact Hx.
Qed.

Lemma lstrip_suffix_last chars s c :
  last_char (lstrip chars s) = Some c → last_char s = Some c.
Proof.
  destruct (lstrip_spec chars s) as (pre & Hs & _ & _).
  intros H. rewrite Hs at 1. by apply last_char_append.
Qed.

(** [strip] removes exactly the surrounding characters of the set. *)
Lemma strip_stripped chars s : stripped_of chars s (strip chars s).
Proof.
  unfold strip.
  destruct (rstrip_spec chars s) as (post & Hs & Hpost & Hlast).
  destruct (lstrip_spec chars (rstrip chars s)) as (pre & Hr & Hpre & Hfirst).
  exists pre, post. repeat split; [|done|done|done|].
  - rewrite <- append_assoc, <- Hr. exact Hs.
  - intros c Hc. apply Hlast. by apply (lstrip_suffix_last chars).
Qed.

End PyStrFacts.

(** ** Matching and parsing dates *)

Module PyTimeFacts.

#[local] Arguments String.append !_ _ / : simpl nomatch.

Lemma match_alt_sound a s m r :
  match_alt a s = Some (m, r) → s = m +:+ r ∧ alt_matches a m.
Proof.
  revert s m. induction a as [|p a IH]; intros s m; simpl.
  - by intros [= <- <-].
  - destruct s as [|c s]; [done|].
    destruct (p c) eqn:Hc; [|done].
    destruct (match_alt a s) as [[m' r']|] eqn:Hm; [|done].
    intros [= <- <-]. destruct (IH _ _ Hm) as [-> Ha]. by simpl.
Qed.

(** A match of a sequence of groups cuts the text into one piece per
    group, each matched by an alternative of its group. *)
Lemma match_groups_sound gs s ms r :
  match_groups gs s = Some (ms, r) →
  s = joined ms +:+ r
  ∧ Forall2 (λ g m, ∃ a, a ∈ g ∧ alt_matches a m) gs ms.
Proof.
  revert s ms. induction gs as [|g gs IH]; intros s ms; simpl.
  - intros [= <- <-]. by split.
  - intros H.
    cut (∃ a m ms', a ∈ g ∧ alt_matches a m ∧ ms = m :: ms'
                    ∧ s = m +:+ joined ms' +:+ r
                    ∧ Forall2 (λ g m, ∃ a, a ∈ g ∧ alt_matches a m) gs ms').
    { intros (a & m & ms' & Hin & Ha & -> & -> & HF). split.
      - simpl. by rewrite PyStrFacts.append_assoc.
      - constructor; [by exists a | done]. }
    induction g as [|a g IHg]; [done|].
    destruct (match_alt a s) as [[m r1]|] eqn:Hm.
    + destruct (match_groups gs r1) as [[ms1 r2]|] eqn:Hg.
      * injection H as <- <-.
        apply match_alt_sound in Hm as [-> Ha].
        apply IH in Hg as [-> HF].
        exists a, m, ms1. repeat split; [apply list_elem_of_here|done..].
      * destruct (IHg H) as (a' & m' & ms' & Hin & Hrest).
        exists a', m', ms'. split; [by apply list_elem_of_further | done].
    + destruct (IHg H) as (a' & m' & ms' & Hin & Hrest).
      exists a', m', ms'. split; [by apply list_elem_of_further | done].
Qed.

Lemma alt_matches_cons p a m :
  alt_matches (p :: a) m → ∃ c m', m = String c m' ∧ p c = true ∧ alt_matches a m'.
Proof. destruct m as [|c m']; simpl; [done|]. intros [??]. by exists c, m'. Qed.

Lemma alt_matches_nil m : alt_matches [] m → m = EmptyString.
Proof. by destruct m. Qed.

Ltac pick_alt :=
  repeat match goal with
    | H : _ ∈ _ :: _ |- _ => apply elem_of_cons in H as [-> | H]
    | H : _ ∈ [] |- _ => by apply elem_of_nil in H
    end.

Ltac open_alt :=
  repeat match goal with
    | H : alt_matches (_ :: _) _ |- _ =>
        apply alt_matches_cons in H as (? & ? & -> & ? & H)
    | H : alt_matches [] _ |- _ => apply alt_matches_nil in H as ->
    end.

(** A text that begins with 20200101 can only be cut into year 2020,
    month 01 and day 01. *)
Lemma date_prefix_groups y m d rest t :
  "20200101" +:+ t = y +:+ m +:+ d +:+ rest →
  (∃ a, a ∈ re_Y ∧ alt_matches a y) →
  (∃ a, a ∈ re_m ∧ alt_matches a m) →
  (∃ a, a ∈ re_d ∧ alt_matches a d) →
  y = "2020" ∧ m = "01" ∧ d = "01".
Proof.
  intros Hs (ay & Hy & Hay) (am & Hm & Ham) (ad & Hd & Had).
  unfold re_Y in Hy. pick_alt. open_alt. simpl in Hs. simplify_eq.
  unfold re_m in Hm. pick_alt; open_alt; simpl in *; simplify_eq.
  unfold re_d in Hd. pick_alt; open_alt; simpl in *; simplify_eq; done.
Qed.

Lemma strptime_date_prefix t dt :
  strptime fmt_YmdHMS ("20200101" +:+ t) = Ok dt →
  year dt = 2020 ∧ month dt = 1 ∧ day dt = 1.
Proof.
  unfold strptime.
  destruct (match_groups fmt_YmdHMS ("20200101" +:+ t)) as [[ms r]|] eqn:Hm; [|done].
  apply match_groups_sound in Hm as [Hs HF].
  unfold fmt_YmdHMS in HF.
  apply Forall2_cons_inv_l in HF as (y & ms1 & Hy & HF & ->).
  apply Forall2_cons_inv_l in HF as (m & ms2 & Hmo & HF & ->).
  apply Forall2_cons_inv_l in HF as (d & ms3 & Hd & HF & ->).
  apply Forall2_cons_inv_l in HF as (hh & ms4 & _ & HF & ->).
  apply Forall2_cons_inv_l in HF as (mm & ms5 & _ & HF & ->).
  apply Forall2_cons_inv_l in HF as (ss & ms6 & _ & HF & ->).
  apply Forall2_nil_inv_l in HF as ->.
  simpl in Hs. rewrite !PyStrFacts.append_assoc in Hs.
  destruct (date_prefix_groups _ _ _ _ _ Hs Hy Hmo Hd) as (-> & -> & ->).
  destruct r; [|done].
  change ((λ m : string, default 0 (py_int m)) <$> ["2020"; "01"; "01"; hh; mm; ss])
    with [2020; 1; 1; default 0 (py_int hh); default 0 (py_int mm);
          default 0 (py_int ss)].
  cbv beta iota.
  match goal with |- (if ?b then _ else _) = _ → _ => destruct b end; [|done].
  by intros [= <-].
Qed.

End PyTimeFacts.

(** ** Character classes and case *)

Module PyCaseFacts.
Import PyStr Notions.

Lemma isspace_among c : isspace c = among string_whitespace c.
Proof. by destruct c as [[] [] [] [] [] [] [] []]; vm_compute. Qed.

Lemma punct_or_space_among c :
  DicomNetReaper.DicomFile.punct_or_space c
  = among (string_punctuation +:+ string_whitespace) c.
Proof. by destruct c as [[] [] [] [] [] [] [] []]; vm_compute. Qed.

Lemma tolower_char c :
  among ascii_uppercase (tolower c) = false ∧ same_letter (tolower c) c = true.
Proof. by destruct c as [[] [] [] [] [] [] [] []]; vm_compute. Qed.

(** What [str.title] makes of a character, by the case of the character. *)
Lemma title_char c :
  (islower c = true →
   among ascii_uppercase c = false ∧ letter c = true
   ∧ among ascii_lowercase (toupper c) = false ∧ letter (toupper c) = true
   ∧ same_letter (toupper c) c = true)
  ∧ (islower c = false → isupper c = true →
     among ascii_lowercase c = false ∧ letter c = true
     ∧ among ascii_uppercase (tolower c) = false ∧ letter (tolower c) = true
     ∧ same_letter (tolower c) c = true)
  ∧ (islower c = false → isupper c = false →
     among ascii_uppercase c = false ∧ among ascii_lowercase c = false
     ∧ letter c = false)
  ∧ same_letter c c = true.
Proof.
  destruct c as [[] [] [] [] [] [] [] []]; vm_compute;
    (split; [|split; [|split]]); try reflexivity; intros; try discriminate; by repeat split.
Qed.

Lemma title_from_spec previous_is_cased s :
  title_cased_from previous_is_cased (title_from previous_is_cased s) = true
  ∧ same_but_case (title_from previous_is_cased s) s = true.
Proof.
  revert previous_is_cased. induction s as [|c s IH]; intros p; [done|].
  destruct (title_char c) as (Hlo & Hup & Hno & Hsame).
  cbn [title_from].
  destruct (islower c) eqn:Hl.
  - destruct (Hlo eq_refl) as (H1 & H2 & H3 & H4 & H5).
    destruct (IH true) as [IH1 IH2].
    destruct p; cbn [title_cased_from same_but_case].
    + by rewrite H1, H2, IH1, Hsame, IH2.
    + by rewrite H3, H4, IH1, H5, IH2.
  - destruct (isupper c) eqn:Hu.
    + destruct (Hup eq_refl eq_refl) as (H1 & H2 & H3 & H4 & H5).
      destruct (IH true) as [IH1 IH2].
      destruct p; cbn [title_cased_from same_but_case].
      * by rewrite H3, H4, IH1, H5, IH2.
      * by rewrite H1, H2, IH1, Hsame, IH2.
    + destruct (Hno eq_refl eq_refl) as (H1 & H2 & H3).
      destruct (IH false) as [IH1 IH2].
      destruct p; cbn [title_cased_from same_but_case];
        by rewrite ?H1, ?H2, H3, IH1, Hsame, IH2.
Qed.

(** [str.title] title-cases and changes nothing but the case of letters. *)
Lemma title_spec s : title_cased (title s) ∧ same_but_case (title s) s = true.
Proof. apply title_from_spec. Qed.

(** [str.lower] leaves no upper-case letter and changes nothing but the
    case of letters. *)
Lemma lower_spec s : no_uppercase (lower s) = true ∧ same_but_case (lower s) s = true.
Proof.
  unfold no_uppercase. induction s as [|c s [IH1 IH2]]; [done|].
  destruct (tolower_char c) as [H1 H2]. cbn [lower all_in same_but_case].
  by rewrite H1, H2, IH1, IH2.
Qed.

End PyCaseFacts.

(** ** The header normalizer *)

Module DicomFileProps.
Import PyStrFacts DicomNetReaper DicomNetReaper.DicomFile.
Import Notions.

(** C8. Patient name parsing: a name with a caret is split at its first
    caret as Lastname^Firstname; a name without a caret is split at its
    last space as Firstname Lastname (all of it is the last name when
    there is no space); both parts are stripped of surrounding whitespace
    and title-cased.  "Doe^Jane" and "Jane Doe" both give firstname
    "Jane", lastname "Doe".

    Title-casing yields a title-cased string that differs from the
    stripped part in the case of letters only, and the whitespace that
    is stripped is Python's [string.whitespace]; names that are not
    title-cased, that are surrounded by whitespace, that hold two spaces
    or two carets show the rules at work. *)
Theorem parse_patient_name_spec (name : string) :
  (∃ f l f' l',
      parse_patient_name name = (title f', title l')
      ∧ stripped_of isspace f f' ∧ stripped_of isspace l l'
      ∧ (split_at_first "^" name l f
         ∨ (contains "^" name = false ∧ split_at_last " " name f l)
         ∨ (contains "^" name = false ∧ contains " " name = false
            ∧ f = EmptyString ∧ l = name)))
  ∧ parse_patient_name "Doe^Jane" = ("Jane", "Doe")
  ∧ parse_patient_name "Jane Doe" = ("Jane", "Doe")
  ∧ (∀ s, title_cased (title s) ∧ same_but_case (title s) s = true)
  ∧ (∀ c, isspace c = among string_whitespace c)
  ∧ parse_patient_name "doe^jANE" = ("Jane", "Doe")
  ∧ parse_patient_name "  o'neil ^ mary ann  " = ("Mary Ann", "O'Neil")
  ∧ parse_patient_name "john ronald TOLKIEN" = ("John Ronald", "Tolkien")
  ∧ parse_patient_name "a^b^c" = ("B^C", "A").
Proof.
  split; [|repeat split; solve [ reflexivity | apply PyCaseFacts.title_spec
                               | apply PyCaseFacts.isspace_among ]].
  unfold parse_patient_name, partition, rpartition.
  destruct (contains "^" name) eqn:Hcaret.
  - destruct (find_first "^" name) as [[l f]|] eqn:Hf.
    + exists f, l, (strip isspace f), (strip isspace l).
      repeat split; try apply strip_stripped.
      left. by apply find_first_Some.
    + apply find_first_None in Hf. congruence.
  - destruct (find_last " " name) as [[f l]|] eqn:Hf.
    + exists f, l, (strip isspace f), (strip isspace l).
      repeat split; try apply strip_stripped.
      right; left. split; [done|]. by apply find_last_Some.
    + exists EmptyString, name, (strip isspace EmptyString), (strip isspace name).
      repeat split; try apply strip_stripped.
      right; right. by apply find_last_None in Hf.
Qed.

(** C9. Patient-id parsing: the id is stripped of surrounding punctuation
    and whitespace and lowercased; it is split at its last '@' into
    subject code and lab info (all of it is lab info when there is no
    '@'); the lab info is split at its first '/' into group and project
    (all of it is the group when there is no '/'); an empty subject code
    is replaced by the default.  "abc123@labX/projY" gives "abc123",
    "labx", "projy".

    What is stripped is Python's [string.punctuation] and
    [string.whitespace]; lowercasing leaves no upper-case letter and
    changes nothing but the case of letters; ids with punctuation and
    whitespace around them, with upper-case letters, with two '@' and
    two '/', and without a subject code show the rules at work. *)
Theorem parse_patient_id_spec (pid dflt : string) :
  (∃ core code lab group project,
      parse_patient_id (Some pid) (Some dflt)
      = (Some (if nonempty code then code else dflt), Some group, Some project)
      ∧ stripped_of punct_or_space pid core
      ∧ (split_at_last "@" (lower core) code lab
         ∨ (contains "@" (lower core) = false
            ∧ code = EmptyString ∧ lab = lower core))
      ∧ (split_at_first "/" lab group project
         ∨ (contains "/" lab = false ∧ group = lab ∧ project = EmptyString)))
  ∧ parse_patient_id (Some "abc123@labX/projY") (Some dflt)
    = (Some "abc123", Some "labx", Some "projy")
  ∧ (∀ c, punct_or_space c = among (string_punctuation +:+ string_whitespace) c)
  ∧ (∀ s, no_uppercase (lower s) = true ∧ same_but_case (lower s) s = true)
  ∧ parse_patient_id (Some " #ABC123@LabX/ProjY!? ") (Some dflt)
    = (Some "abc123", Some "labx", Some "projy")
  ∧ parse_patient_id (Some "a@b@C/d/E") (Some dflt)
    = (Some "a@b", Some "c", Some "d/e")
  ∧ parse_patient_id (Some "Subj.") (Some dflt)
    = (Some dflt, Some "subj", Some EmptyString).
Proof.
  split; [|repeat split; solve [ reflexivity | apply PyCaseFacts.lower_spec
                               | apply PyCaseFacts.punct_or_space_among ]].
  unfold parse_patient_id, partition, rpartition, or_else.
  set (core := strip punct_or_space pid).
  assert (∀ lab, ∃ group project,
             (let '(g, _, e) :=
                match find_first "/" lab with
                | Some (b, a) => (b, String "/" EmptyString, a)
                | None => (lab, EmptyString, EmptyString)
                end in (g, e)) = (group, project)
             ∧ (split_at_first "/" lab group project
                ∨ (contains "/" lab = false ∧ group = lab ∧ project = EmptyString)))
    as Hlab.
  { intros lab. destruct (find_first "/" lab) as [[g e]|] eqn:Hf.
    - exists g, e. split; [done|]. left. by apply find_first_Some.
    - exists lab, EmptyString. split; [done|]. right. by apply find_first_None in Hf. }
  destruct (find_last "@" (lower core)) as [[code lab]|] eqn:Hf.
  - destruct (Hlab lab) as (group & project & Heq & Hsplit).
    exists core, code, lab, group, project.
    split; [|split; [apply strip_stripped|split; [|done]]].
    + destruct (find_first "/" lab) as [[??]|]; by simplify_eq/=.
    + left. by apply find_last_Some.
  - destruct (Hlab (lower core)) as (group & project & Heq & Hsplit).
    exists core, EmptyString, (lower core), group, project.
    split; [|split; [apply strip_stripped|split; [|done]]].
    + destruct (find_first "/" (lower core)) as [[??]|]; by simplify_eq/=.
    + right. by apply find_last_None in Hf.
Qed.

Ltac break_bind H :=
  repeat match type of H with
    | rbind ?m _ = Ok _ => destruct m eqn:?; cbn [rbind] in H; [|discriminate H]
    | (let '(_, _) := ?x in _) = _ => destruct x eqn:?
    end.

Section Deidentify.

Variable sha256_hexdigest : string → string.
Variable tzinfo : Type.
Variable localize_timestamp : datetime → option tzinfo → datetime.

(** Localization attaches a zone to the wall-clock time it is given. *)
Hypothesis localize_same_date : ∀ d z, same_date (localize_timestamp d z) d.

Abbreviation timestamp := (timestamp tzinfo localize_timestamp).
Abbreviation parse_header := (parse_header sha256_hexdigest tzinfo localize_timestamp).
Abbreviation init := (init sha256_hexdigest tzinfo localize_timestamp).

Lemma timestamp_study_date time tz sd :
  timestamp (Some (VStr "20200101")) time tz = Ok (Some sd) →
  year sd = 2020 ∧ month sd = 1 ∧ day sd = 1.
Proof.
  unfold DicomFile.timestamp.
  destruct (truthy _ && truthy time); [|done].
  intros H. cbn [as_str rbind] in H. break_bind H.
  injection H as <-.
  destruct (localize_same_date a0 tz) as (-> & -> & ->).
  by eapply PyTimeFacts.strptime_date_prefix.
Qed.

Lemma parse_header_study dcm pid acq tz p sd :
  parse_header dcm pid acq tz = Ok (p, sd) →
  timestamp (dcm !! "StudyDate") (dcm !! "StudyTime") tz = Ok sd
  ∧ session_timestamp p = sd.
Proof.
  unfold DicomFile.parse_header. intros H. break_bind H.
  by injection H as <- <-.
Qed.

Lemma deidentify_born_1990 dcm study :
  dcm !! "PatientBirthDate" = Some (VStr "19900101") →
  year study = 2020 → month study = 1 → day study = 1 →
  age_in_months study (mk_datetime 1990 1 1 0 0 0) = 360
  ∧ deidentify dcm (Some study)
    = Ok (let aged :=
            delete "PatientBirthDate" (<["PatientAge" := VStr "360M"]> dcm) in
          if truthy (aged !! "PatientName") then delete "PatientName" aged
          else aged).
Proof.
  intros Hdob Hy Hm Hd.
  assert (age_in_months study (mk_datetime 1990 1 1 0 0 0) = 360) as Hage.
  { unfold age_in_months. rewrite Hy, Hm, Hd. done. }
  split; [done|].
  assert (parse_patient_dob (VStr "19900101")
          = Some (mk_datetime 1990 1 1 0 0 0)) as Hparse by (by vm_compute).
  unfold deidentify, get_or_empty. rewrite Hdob.
  cbn [truthy nonempty default from_option id].
  rewrite Hparse, Hage. done.
Qed.

Lemma deidentify_no_study dcm :
  dcm !! "PatientBirthDate" = Some (VStr "19900101") →
  deidentify dcm None = Raise AttributeError.
Proof.
  intros Hdob. unfold deidentify, get_or_empty. rewrite Hdob. done.
Qed.

(** C1, as the code has it. When a header with birth date "19900101"
    and study date "20200101" is parsed and de-identified, the age is
    360 whole months and the age field written back is "360M" (an age
    under 960 months is encoded in months); afterwards the birth date
    field is absent, and the name field holds no name: it is absent
    whenever the header had a non-empty name. *)
Theorem deidentify_age_1990_2020 dcm tz f dcm' :
  dcm !! "PatientBirthDate" = Some (VStr "19900101") →
  dcm !! "StudyDate" = Some (VStr "20200101") →
  init (Ok dcm) true true tz = Ok (f, dcm') →
  (∃ study,
      parsed f ≫= session_timestamp = Some study
      ∧ age_in_months study (mk_datetime 1990 1 1 0 0 0) = 360)
  ∧ dcm' !! "PatientAge" = Some (VStr "360M")
  ∧ dcm' !! "PatientBirthDate" = None
  ∧ truthy (dcm' !! "PatientName") = false
  ∧ (truthy (dcm !! "PatientName") = true → dcm' !! "PatientName" = None).
Proof.
  intros Hdob Hdate H. unfold DicomFile.init in H.
  cbn [negb andb rbind] in H.
  destruct (as_str AttributeError (dcm !! "Manufacturer")) as [manufacturer|];
    [|done].
  cbn [rbind] in H.
  destruct (parse_header _ _ _ _) as [[p sd]|] eqn:Hparse; [|done].
  cbn [rbind] in H.
  destruct (deidentify dcm sd) as [aged|] eqn:Hdeid; [|done].
  injection H as <- <-.
  apply parse_header_study in Hparse as [Hts Hsess].
  rewrite Hdate in Hts.
  destruct sd as [study|].
  - apply timestamp_study_date in Hts as (Hy & Hm & Hd).
    destruct (deidentify_born_1990 dcm study Hdob Hy Hm Hd) as [Hage Heq].
    rewrite Heq in Hdeid. injection Hdeid as <-.
    split; [exists study; by rewrite <- Hsess|].
    cbv zeta.
    set (aged := delete "PatientBirthDate" (<["PatientAge" := VStr "360M"]> dcm)).
    assert (aged !! "PatientAge" = Some (VStr "360M")) as Hage'.
    { unfold aged. rewrite lookup_delete_ne by done. by rewrite lookup_insert_eq. }
    assert (aged !! "PatientBirthDate" = None) as Hbd.
    { unfold aged. by rewrite lookup_delete_eq. }
    assert (aged !! "PatientName" = dcm !! "PatientName") as Hname.
    { unfold aged. rewrite lookup_delete_ne by done. by rewrite lookup_insert_ne. }
    destruct (truthy (aged !! "PatientName")) eqn:Ht.
    + rewrite !lookup_delete_ne by done. rewrite lookup_delete_eq. done.
    + rewrite Hname in Ht. repeat split; try done; [by rewrite Hname|congruence].
  - by rewrite deidentify_no_study in Hdeid.
Qed.

End Deidentify.

(** The theorem at work on a header that names Jane Doe. *)
Lemma deidentify_age_1990_2020_witness :
  match DicomFile.init Examples.digest unit Examples.localize
          (Ok Examples.jane) true true None with
  | Ok (f, dcm') =>
      dcm' !! "PatientAge" = Some (VStr "360M")
      ∧ dcm' !! "PatientBirthDate" = None
      ∧ dcm' !! "PatientName" = None
  | Raise _ => False
  end.
Proof.
  assert (is_ok (DicomFile.init Examples.digest unit Examples.localize
                   (Ok Examples.jane) true true None) = true) as Hok.
  { vm_compute. reflexivity. }
  destruct (DicomFile.init Examples.digest unit Examples.localize
              (Ok Examples.jane) true true None) as [[f dcm']|e] eqn:Hinit.
  - destruct (deidentify_age_1990_2020 Examples.digest unit Examples.localize
                (λ d z, conj eq_refl (conj eq_refl eq_refl))
                Examples.jane None f dcm')
      as (_ & Hage & Hdob & _ & Hname).
    + vm_compute. reflexivity.
    + vm_compute. reflexivity.
    + exact Hinit.
    + split; [exact Hage|]. split; [exact Hdob|].
      apply Hname. vm_compute. reflexivity.
  - discriminate Hok.
Defined.

(** C1, as the specification has it, fails: the age of 360 months is
    written as "360M", not as "030Y"; and a name field that is present
    but empty stays in the header. *)
Lemma deidentify_age_counterexample :
  Examples.nameless !! "PatientBirthDate" = Some (VStr "19900101")
  ∧ Examples.nameless !! "StudyDate" = Some (VStr "20200101")
  ∧ match DicomFile.init Examples.digest unit Examples.localize
            (Ok Examples.nameless) true true None with
    | Ok (f, dcm') =>
        dcm' !! "PatientAge" = Some (VStr "360M")
        ∧ dcm' !! "PatientAge" ≠ Some (VStr "030Y")
        ∧ dcm' !! "PatientName" = Some (VStr EmptyString)
    | Raise _ => False
    end.
Proof.
  vm_compute. repeat split; try reflexivity. discriminate.
Qed.

End DicomFileProps.

(** ** The network reaper *)

Module DicomNetReaperProps.
Import DicomNetReaper.

(** C3, where the code departs from it. A find that matches no series
    makes [instrument_query] return [None], the value reserved for a
    communication error, not an empty snapshot. *)
Theorem instrument_query_empty : instrument_query [] = Ok None.
Proof. reflexivity. Qed.

Section Reap.

Variable sha256_hexdigest : string → string.
Variable tzinfo : Type.
Variable localize_timestamp : datetime → option tzinfo → datetime.
Variable re_match : string → string → bool.
Variable Metadata : Type.
Variable metadata : DicomFile.t → Metadata.
Variable create_archive : string → string → string.
Variable scu_move : string → bool * Z * list (string * option Dataset).
Variable epoch_seconds : datetime → Z.
Variable reap_peripheral_data : string → DicomFile.t → string → string → M unit.

Abbreviation is_desired := (is_desired_patient_id tzinfo re_match).
Abbreviation DicomFile_new :=
  (DicomFile_new sha256_hexdigest tzinfo localize_timestamp).
Abbreviation recheck :=
  (recheck sha256_hexdigest tzinfo localize_timestamp re_match).
Abbreviation move := (move scu_move).
Abbreviation reap :=
  (reap sha256_hexdigest tzinfo localize_timestamp re_match Metadata metadata
     create_archive scu_move epoch_seconds reap_peripheral_data).


(** C6. A series whose declared image count is zero yields no outcome
    and an empty archive map, and nothing is done to the world: no
    transfer is issued and no archive is built. *)
Theorem reap_zero_images self _id item tempdir w :
  images (state item) = 0 →
  reap self _id item tempdir w = (w, Ok (None, ∅)).
Proof. intros H. unfold DicomNetReaper.reap. by rewrite H. Qed.


(** Reading a file without parsing leaves the world as it is. *)
Lemma DicomFile_new_plain filepath tz w :
  (DicomFile_new filepath false false tz w).1 = w.
Proof.
  unfold DicomNetReaper.DicomFile_new.
  by destruct (DicomFile.init _ _ _ _ _ _ _) as [[??]|].
Qed.

Lemma recheck_world self success reap_cnt filepaths w :
  (recheck self success reap_cnt filepaths w).1 = w.
Proof.
  unfold DicomNetReaper.recheck.
  destruct (success && (0 <? reap_cnt)); [|done].
  destruct filepaths as [|filepath ?]; [done|].
  unfold bind.
  pose proof (DicomFile_new_plain filepath None w) as Hw.
  destruct (DicomFile_new filepath false false None w) as [w' [dcm|e]];
    simpl in Hw; subst w'; [|done].
  by destruct (DicomFile.patient_id dcm).
Qed.

(** C5, as the code has it. When a series that gets past the checks of
    the declared count and patient id is moved and the number of images
    transferred differs from the declared one, [reap] issues that one
    move, builds no archive and never reports success: it reports
    failure with an empty archive map when the check of the patient id
    read from the first file lets it go on (as it does when the move
    failed or transferred nothing), no outcome when that check
    discards the series, and raises when that check raises. *)
Theorem reap_count_mismatch self _id item tempdir w :
  images (state item) ≠ 0 →
  patient_id (state item) = EmptyString
  ∨ is_desired self (patient_id (state item)) = true →
  (scu_move _id).1.2 ≠ images (state item) →
  let success := (scu_move _id).1.1 in
  let reap_cnt := (scu_move _id).1.2 in
  let w1 := (move _id tempdir w).1 in
  let desired := (recheck self success reap_cnt (join tempdir <$> listing w1) w1).2 in
  trace w1 = trace w ++ [Move _id tempdir]
  ∧ reap self _id item tempdir w
    = (w1, match desired with
           | Ok true => Ok (Some false, ∅)
           | Ok false => Ok (None, ∅)
           | Raise e => Raise e
           end)
  ∧ (success = false ∨ reap_cnt ≤ 0 → desired = Ok true)
  ∧ (∀ w' m, reap self _id item tempdir w ≠ (w', Ok (Some true, m)))
  ∧ (∀ a d, CreateArchive a d ∈ trace w1 → CreateArchive a d ∈ trace w).
Proof.
  intros Himg Hpre Hcnt success reap_cnt w1 desired.
  assert (trace w1 = trace w ++ [Move _id tempdir]) as Htrace.
  { unfold w1, DicomNetReaper.move. by destruct (scu_move _id) as [[??]?]. }
  cut (reap self _id item tempdir w
       = (w1, match desired with
              | Ok true => Ok (Some false, ∅)
              | Ok false => Ok (None, ∅)
              | Raise e => Raise e
              end)
       ∧ (success = false ∨ reap_cnt ≤ 0 → desired = Ok true)).
  { intros [Hreap Hnone]. repeat split; try done.
    - intros w' m. rewrite Hreap. by destruct desired as [[|]|].
    - intros a d. rewrite Htrace, elem_of_app, list_elem_of_singleton.
      by intros [|]. }
  split.
  - unfold DicomNetReaper.reap.
    apply Z.eqb_neq in Himg as ->.
    assert (nonempty (patient_id (state item))
            && negb (is_desired self (patient_id (state item))) = false) as ->.
    { destruct Hpre as [-> | ->]; [done | by rewrite andb_false_r]. }
    unfold bind at 1.
    assert (move _id tempdir w = (w1, Ok (success, reap_cnt))) as ->.
    { unfold w1, success, reap_cnt, DicomNetReaper.move.
      by destruct (scu_move _id) as [[??]?]. }
    unfold bind at 1, listdir.
    unfold bind at 1.
    pose proof (recheck_world self success reap_cnt (join tempdir <$> listing w1) w1)
      as Hw.
    fold desired.
    destruct (recheck self success reap_cnt (join tempdir <$> listing w1) w1)
      as [w2 r] eqn:Hr.
    simpl in Hw. subst w2. subst desired. cbn [snd].
    destruct r as [[|]|e]; [|done..].
    cbn [negb]. apply Z.eqb_neq in Hcnt. fold reap_cnt in Hcnt. rewrite Hcnt.
    by rewrite andb_false_r.
  - intros Hnone. unfold desired, DicomNetReaper.recheck.
    assert (success && (0 <? reap_cnt) = false) as ->; [|done].
    destruct Hnone as [-> | Hle]; [done|].
    apply andb_false_iff. right. by apply Z.ltb_ge.
Qed.

End Reap.

Import Examples.

(** The theorems at work on the sample series. *)
Lemma reap_zero_images_witness :
  run_reap "*" (scu_delivers 5 jane) 0 "abc123@labX/projY"
  = (empty_world, Ok (None, ∅)).
Proof. unfold run_reap. apply reap_zero_images. reflexivity. Defined.



Lemma reap_count_mismatch_witness :
  (run_reap "*" (scu_delivers 3 jane) 5 "abc123@labX/projY").2
  = Ok (Some false, ∅).
Proof.
  unfold run_reap.
  edestruct (reap_count_mismatch digest unit localize re_match string metadata
               create_archive (scu_delivers 3 jane) epoch physio (reaper_for "*") "1.2.3"
               (mk_ReaperItem (mk_State 5 "abc123@labX/projY")) "/tmp/reap"
               empty_world) as (_ & Hreap & _).
  - simpl. lia.
  - right. vm_compute. reflexivity.
  - simpl. lia.
  - rewrite Hreap. vm_compute. reflexivity.
Defined.

(** C5, as the specification has it, fails: 5 images declared, 3
    transferred, and the first file read names the blacklisted patient
    "discard"; the outcome is none, not failure. *)
Lemma reap_count_mismatch_counterexample :
  (scu_delivers 3 (header "discard" "Doe^Jane") "1.2.3").1 = (true, 3)
  ∧ (run_reap "*" (scu_delivers 3 (header "discard" "Doe^Jane")) 5
       "abc123@labX/projY").2 = Ok (None, ∅)
  ∧ (run_reap "*" (scu_delivers 3 (header "discard" "Doe^Jane")) 5
       "abc123@labX/projY").2 ≠ Ok (Some false, ∅).
Proof.
  split; [by vm_compute|]. split; [by vm_compute|].
  vm_compute. discriminate.
Qed.
End DicomNetReaperProps.

(** ** The file reaper *)

Module DicomFileReaperProps.
Import DicomFileReaper.

Lemma visit_dot_free self_path i_state entry :
  dot_free i_state → dot_free (visit self_path i_state entry).
Proof.
  intros Hfree. destruct entry as [dirpath d]. unfold visit.
  destruct (startswith "." (basename dirpath)) eqn:Hdot; [done|].
  destruct (String.eqb dirpath self_path); [done|].
  destruct (_ && _); [|done].
  destruct (stat_state d) as [st|]; [|done].
  intros k Hk. rewrite lookup_insert_ne; [by apply Hfree | congruence].
Qed.

Lemma foldl_visit_dot_free self_path entries i_state :
  dot_free i_state → dot_free (foldl (visit self_path) i_state entries).
Proof.
  revert i_state. induction entries as [|e entries IH]; intros i_state H; [done|].
  simpl. apply IH. by apply visit_dot_free.
Qed.

(** The loop of [reap] archives the data files and keeps the last
    sidecar. *)
Lemma reap_files_spec listing reap_cnt reap_dir moved :
  reap_files listing reap_cnt reap_dir moved
  = (reap_cnt + Z.of_nat (length (data_files listing)),
     reap_dir ++ (f_name <$> data_files listing),
     match last_sidecar listing with
     | Some f => Some f
     | None => moved
     end).
Proof.
  revert reap_cnt reap_dir moved.
  induction listing as [|f listing IH]; intros reap_cnt reap_dir moved.
  - simpl. by rewrite Z.add_0_r, app_nil_r.
  - unfold data_files, last_sidecar in *. simpl.
    destruct (is_sidecar (f_name f)) eqn:Hside; simpl.
    + rewrite IH. f_equal.
      destruct (List.filter (λ f0, is_sidecar (f_name f0)) listing) as [|g l];
        [done|].
      change (last (f :: g :: l)) with (last (g :: l)).
      destruct (last (g :: l)) eqn:Hlast; [done|].
      by apply last_None in Hlast.
    + destruct (f_dicom f); simpl; rewrite IH; [|done].
      rewrite <- app_assoc, Nat2Z.inj_succ. f_equal. f_equal. lia.
Qed.

Lemma reap_spec _id item tempdir listing :
  reap _id item tempdir listing
  = (let? metadata := load_metadata (last_sidecar listing) in
     let? metadata := set_filetype metadata in
     Ok (true,
         mk_archive ((tempdir +:+ "/" +:+ "reap") +:+ ".zip")
           (tempdir +:+ "/" +:+ "reap") (basename (tempdir +:+ "/" +:+ "reap"))
           (f_name <$> data_files listing) metadata))%res.
Proof.
  unfold reap. rewrite reap_files_spec.
  by destruct (last_sidecar listing).
Qed.

(** C7. Files that fail DICOM validation are left out without aborting
    the reap: whenever the sidecar, if there is one, loads as a JSON
    object, [reap] reports success and the archive holds exactly the
    files that pass validation (and are not sidecars), as many as there
    are of them; with 3 valid files and 1 corrupt one, those 3. *)
Theorem reap_excludes_invalid_files _id item tempdir listing m :
  load_metadata (last_sidecar listing) = Ok (JObject m) →
  ∃ a, reap _id item tempdir listing = Ok (true, a)
       ∧ arc_files a = f_name <$> data_files listing
       ∧ length (arc_files a) = length (data_files listing)
       ∧ arc_metadata a = <["filetype" := JStr "dicom"]> m.
Proof.
  intros Hmd. rewrite reap_spec, Hmd. simpl.
  eexists. split; [done|]. simpl. by rewrite length_fmap.
Qed.

(** C10. When every file that is not a sidecar fails validation, [reap]
    still reports success with one archive: it holds no data file, and
    its metadata are the contents of the sidecar (nothing, without a
    sidecar) plus 'filetype'. *)
Theorem reap_all_invalid _id item tempdir listing m :
  (∀ f, f ∈ listing → is_sidecar (f_name f) = false → f_dicom f = false) →
  load_metadata (last_sidecar listing) = Ok (JObject m) →
  ∃ a, reap _id item tempdir listing = Ok (true, a)
       ∧ arc_files a = []
       ∧ arc_metadata a = <["filetype" := JStr "dicom"]> m.
Proof.
  intros Hbad Hmd.
  assert (data_files listing = []) as Hnone.
  { clear Hmd. unfold data_files.
    induction listing as [|f l IH]; [done|]. simpl.
    destruct (is_sidecar (f_name f)) eqn:Hside; simpl.
    - apply IH. intros g Hg. apply Hbad. by apply list_elem_of_further.
    - rewrite (Hbad f (list_elem_of_here _ _) Hside).
      apply IH. intros g Hg. apply Hbad. by apply list_elem_of_further. }
  rewrite reap_spec, Hmd, Hnone. simpl.
  eexists. by split.
Qed.

Import Examples.

(** C2, where the code departs from it. The walk is not pruned at a
    directory whose name begins with a dot: only the own name of each
    directory is looked at, so that the leaf directory series1 below the
    dot directory .cache of the watched root is an item of the snapshot,
    against the comment of the code (ignore dotdirectories). *)
Theorem query_surfaces_leaf_under_dot_directory :
  startswith "." (basename "/data/.cache") = true
  ∧ ("/data/.cache", Dir ".cache" (Some 100)
                       [Dir "series1" (Some 100) [] [valid "a.dcm"]] [])
    ∈ walk "/data" hidden_tree
  ∧ ("/data/.cache/series1", Dir "series1" (Some 100) [] [valid "a.dcm"])
    ∈ walk "/data/.cache" (Dir ".cache" (Some 100)
                             [Dir "series1" (Some 100) [] [valid "a.dcm"]] [])
  ∧ instrument_query "/data" hidden_tree !! "/data/.cache/series1"
    = Some (mk_ReaperItem (mk_State 100 1 512) "/data/.cache/series1").
Proof.
  split; [reflexivity|]. split; [|split; [|by vm_compute]].
  - vm_compute. apply list_elem_of_further, list_elem_of_here.
  - vm_compute. apply list_elem_of_further, list_elem_of_here.
Qed.

(** The theorems at work on the sample listings. *)
Lemma reap_excludes_invalid_files_witness :
  ∃ a, reap "/data/s1" an_item "/tmp/w"
         [valid "a.dcm"; corrupt "b.dcm"; valid "c.dcm"; valid "d.dcm"]
       = Ok (true, a)
       ∧ arc_files a = ["a.dcm"; "c.dcm"; "d.dcm"]
       ∧ arc_metadata a = {["filetype" := JStr "dicom"]}.
Proof.
  destruct (reap_excludes_invalid_files "/data/s1" an_item "/tmp/w"
              [valid "a.dcm"; corrupt "b.dcm"; valid "c.dcm"; valid "d.dcm"] ∅)
    as (a & Hreap & Hfiles & _ & Hmd); [reflexivity|].
  exists a. split; [exact Hreap|]. split; [exact Hfiles|].
  rewrite Hmd. reflexivity.
Defined.

Lemma reap_all_invalid_witness :
  ∃ a, reap "/data/s1" an_item "/tmp/w"
         [corrupt "a.dcm"; sidecar {["subject" := JStr "s01"]}; corrupt "b.dcm"]
       = Ok (true, a)
       ∧ arc_files a = []
       ∧ arc_metadata a
         = {["subject" := JStr "s01"; "filetype" := JStr "dicom"]}.
Proof.
  destruct (reap_all_invalid "/data/s1" an_item "/tmp/w"
              [corrupt "a.dcm"; sidecar {["subject" := JStr "s01"]}; corrupt "b.dcm"]
              {["subject" := JStr "s01"]})
    as (a & Hreap & Hfiles & Hmd).
  - intros f Hf Hside. 
    repeat (apply elem_of_cons in Hf as [-> | Hf]; [by vm_compute in Hside || reflexivity|]).
    by apply elem_of_nil in Hf.
  - reflexivity.
  - exists a. split; [exact Hreap|]. split; [exact Hfiles|].
    rewrite Hmd. by vm_compute.
Defined.
End DicomFileReaperProps.

(** ** More on strings, digits and paths *)

Module PyStrMore.
Import PyStr PyTime PyStrFacts Notions.
#[local] Arguments String.append !_ _ / : simpl nomatch.

Lemma contains_append c a b :
  contains c (a +:+ b) = contains c a || contains c b.
Proof. induction a as [|x a IH]; simpl; [done|]. by rewrite IH, orb_assoc. Qed.

Lemma all_in_append P a b : all_in P (a +:+ b) = all_in P a && all_in P b.
Proof. induction a as [|x a IH]; simpl; [done|]. by rewrite IH, andb_assoc. Qed.

Lemma tolower_not_upper c : isupper (tolower c) = false.
Proof. by destruct c as [[] [] [] [] [] [] [] []]; vm_compute. Qed.

Lemma tolower_slash c : tolower c = "/"%char → c = "/"%char.
Proof. by destruct c as [[] [] [] [] [] [] [] []]; vm_compute. Qed.

Lemma lower_no_upper s : no_upper (lower s).
Proof.
  unfold no_upper. induction s as [|c s IH]; simpl; [done|].
  by rewrite tolower_not_upper, IH.
Qed.

Lemma no_upper_split sep s b a :
  no_upper s → s = b +:+ String sep a → no_upper b ∧ no_upper a.
Proof.
  unfold no_upper. intros H ->. rewrite all_in_append in H. simpl in H.
  apply andb_true_iff in H as [Hb [_ Ha]%andb_true_iff]. done.
Qed.

Lemma first_char_lower s : first_char (lower s) = tolower <$> first_char s.
Proof. by destruct s. Qed.

Lemma last_char_lower s : last_char (lower s) = tolower <$> last_char s.
Proof.
  induction s as [|c s IH]; [done|]. simpl.
  destruct s as [|d s]; [done|]. simpl in *. by rewrite IH.
Qed.

(** The words of [str.split()] are not empty and hold no whitespace. *)
Lemma split_from_words word s w :
  w ∈ split_from word s →
  all_in (fun c => negb (isspace c)) word = true →
  nonempty w = true ∧ all_in (fun c => negb (isspace c)) w = true.
Proof.
  revert word. induction s as [|c s IH]; intros word; simpl.
  - destruct (nonempty word) eqn:Hw; [|by intros ?%elem_of_nil].
    by intros ->%list_elem_of_singleton.
  - destruct (isspace c) eqn:Hc.
    + destruct (nonempty word) eqn:Hw.
      * intros [->|Hin]%elem_of_cons Hword; [done|]. by apply (IH EmptyString).
      * intros Hin _. by apply (IH EmptyString).
    + intros Hin Hword. apply (IH _ Hin).
      rewrite all_in_append, Hword. simpl. by rewrite Hc.
Qed.

Lemma slice_to_idem n s : slice_to n (slice_to n s) = slice_to n s.
Proof. revert s. induction n as [|n IH]; intros [|c s]; simpl; by rewrite ?IH. Qed.

Lemma nonempty_slice_to n s : nonempty (slice_to (S n) s) = nonempty s.
Proof. by destruct s. Qed.

Lemma pretty_N_go_nonempty x s : s ≠ EmptyString → pretty_N_go x s ≠ EmptyString.
Proof.
  revert s. induction (N.lt_wf_0 x) as [x _ IH]; intros s Hs.
  assert (x = 0 ∨ 0 < x)%N as [->|Hx] by lia.
  - by rewrite pretty_N_go_0.
  - rewrite pretty_N_go_step by done. apply IH; [by apply N.div_lt | done].
Qed.

Lemma pretty_Z_nonempty (n : Z) : nonempty (pretty n) = true.
Proof.
  destruct n as [|p|p]; [done| |done].
  change (pretty (Z.pos p)) with (pretty_N_go (N.pos p) EmptyString).
  rewrite pretty_N_go_step by lia.
  destruct (pretty_N_go _ _) eqn:E; [|done].
  by apply pretty_N_go_nonempty in E.
Qed.

Lemma replace_char_absent c new s :
  contains c new = false →
  contains c (replace (String c EmptyString) new s) = false.
Proof.
  intros Hnew. unfold replace. induction s as [|d s IH]; [done|].
  cbn [replace_from startswith String.length Nat.sub].
  destruct (Ascii.eqb c d) eqn:Hcd; cbn [andb].
  - by rewrite contains_append, Hnew, IH.
  - cbn [contains]. by rewrite Ascii.eqb_sym, Hcd, IH.
Qed.

Lemma ends_with_slash a :
  last (list_ascii_of_string a) = Some "/"%char → ∃ b, a = b +:+ "/".
Proof.
  induction a as [|c a IH]; [done|]. simpl.
  destruct a as [|d a].
  - intros [= ->]. by exists EmptyString.
  - intros H. destruct (IH H) as [b Hb]. exists (String c b). simpl. by rewrite <- Hb.
Qed.

(** [os.path.basename] undoes [os.path.join] with a name that has no
    slash. *)
Lemma basename_join a name :
  contains "/" name = false → DicomFileReaper.basename (DicomFileReaper.join a name) = name.
Proof.
  intros Hname.
  unfold DicomFileReaper.basename, DicomFileReaper.join, DicomNetReaper.basename,
    DicomNetReaper.join.
  assert (startswith "/" name = false) as ->.
  { destruct name as [|c name]; [done|]. cbn [contains startswith] in *.
    apply orb_false_elim in Hname as [Hc _].
    destruct (Ascii.eqb "/" c) eqn:E; [|done].
    apply Ascii.eqb_eq in E as <-. by rewrite Ascii.eqb_refl in Hc. }
  assert (∀ b, (rpartition "/" (b +:+ String "/" name)).2 = name) as Hsplit.
  { intros b. unfold rpartition.
    by rewrite (split_at_last_find "/" (b +:+ String "/" name) b name). }
  destruct a as [|c a].
  - unfold rpartition. by apply find_last_None in Hname as ->.
  - cbv iota. remember (String c a) as a' eqn:Ha'. clear Ha'.
    destruct (last (list_ascii_of_string a')) as [x|] eqn:Hlast;
      cbn [default from_option id].
    + destruct (Ascii.eqb x "/") eqn:Hx.
      * apply Ascii.eqb_eq in Hx as ->. apply ends_with_slash in Hlast as [b ->].
        rewrite append_assoc. apply Hsplit.
      * apply Hsplit.
    + rewrite Ascii.eqb_refl. apply last_None in Hlast.
      destruct a'; [|done]. simpl. unfold rpartition.
      by apply find_last_None in Hname as ->.
Qed.


(** [strptime] returns only dates that exist, and at midnight when the
    format has no time. *)
Lemma strptime_valid fmt s d : strptime fmt s = Ok d → valid_datetime d = true.
Proof.
  unfold strptime.
  destruct (match_groups fmt s) as [[ms [|??]]|]; try done.
  destruct ((fun m => default 0 (py_int m)) <$> ms)
    as [|y [|m [|dd [|hh [|mm [|ss [|??]]]]]]]; try done.
  - destruct (valid_datetime _) eqn:Hv; [|done]. by intros [= <-].
  - destruct (valid_datetime _) eqn:Hv; [|done]. by intros [= <-].
Qed.

Lemma strptime_Ymd_midnight s d :
  strptime fmt_Ymd s = Ok d → hour d = 0 ∧ minute d = 0 ∧ second d = 0.
Proof.
  unfold strptime.
  destruct (match_groups fmt_Ymd s) as [[ms r]|] eqn:Hm; [|done].
  apply PyTimeFacts.match_groups_sound in Hm as [_ HF]. unfold fmt_Ymd in HF.
  apply Forall2_cons_inv_l in HF as (y & ms1 & _ & HF & ->).
  apply Forall2_cons_inv_l in HF as (m & ms2 & _ & HF & ->).
  apply Forall2_cons_inv_l in HF as (dd & ms3 & _ & HF & ->).
  apply Forall2_nil_inv_l in HF as ->.
  destruct r; [|done]. simpl.
  destruct (valid_datetime _); [|done]. by intros [= <-].
Qed.

End PyStrMore.

(** ** More on the header normalizer *)

Module DicomFileMore.
Import PyStr PyTime Dicom PyStrFacts PyStrMore DicomNetReaper DicomNetReaper.DicomFile.
Import Notions.
#[local] Arguments String.append !_ _ / : simpl nomatch.




(** X2. The age in whole months of a study that is not before the birth
    date is never negative (both dates being dates that exist). *)
Theorem age_in_months_nonneg study dob :
  valid_datetime study = true → valid_datetime dob = true →
  datetime_lt study dob = false →
  0 ≤ age_in_months study dob.
Proof.
  unfold valid_datetime, datetime_lt, fields, age_in_months. simpl.
  intros Hs Hd Hlt.
  repeat (apply andb_true_iff in Hs as [Hs ?]).
  repeat (apply andb_true_iff in Hd as [Hd ?]).
  destruct (day study <? day dob) eqn:Hday.
  - apply Z.ltb_lt in Hday.
    repeat (apply orb_false_iff in Hlt as [? Hlt]
            || apply andb_false_iff in Hlt as [Hlt|Hlt]); lia.
  - repeat (apply orb_false_iff in Hlt as [? Hlt]
            || apply andb_false_iff in Hlt as [Hlt|Hlt]); lia.
Qed.

Lemma age_in_months_nonneg_witness :
  0 ≤ age_in_months (mk_datetime 2020 1 1 9 30 0) (mk_datetime 1990 1 1 0 0 0).
Proof. apply age_in_months_nonneg; reflexivity. Defined.

(** X3. A birth date that [parse_patient_dob] accepts was a string, is a
    date that exists, at midnight, and of the year 1900 or later. *)
Theorem parse_patient_dob_sane dob d :
  parse_patient_dob dob = Some d →
  (∃ s, dob = VStr s)
  ∧ valid_datetime d = true
  ∧ 1900 ≤ year d
  ∧ hour d = 0 ∧ minute d = 0 ∧ second d = 0.
Proof.
  unfold parse_patient_dob. destruct dob as [s| |]; try done.
  destruct (strptime fmt_Ymd s) as [d0|] eqn:Hp; [|done].
  destruct (datetime_lt d0 _) eqn:Hlt; [done|]. intros [= ->].
  pose proof (strptime_valid _ _ _ Hp) as Hv.
  pose proof (strptime_Ymd_midnight _ _ Hp) as Hmid.
  split; [by exists s|]. split; [done|]. split; [|done].
  unfold datetime_lt, fields in Hlt. simpl in Hlt.
  apply orb_false_iff in Hlt as [Hy _]. by apply Z.ltb_ge in Hy.
Qed.

Lemma parse_patient_dob_sane_witness :
  ∃ d, parse_patient_dob (VStr "19000101") = Some d ∧ 1900 ≤ year d.
Proof.
  exists (mk_datetime 1900 1 1 0 0 0). split; [reflexivity|].
  by destruct (parse_patient_dob_sane (VStr "19000101") (mk_datetime 1900 1 1 0 0 0)
                 eq_refl) as (_ & _ & H & _).
Defined.

(** X4. The two conventions for a patient name agree: with a first name
    [f] and a last name [l] that hold no caret, [l] holding no space
    either, "l^f" and "f l" are parsed to the same pair, the stripped and
    title-cased [f] and [l]. *)
Theorem parse_patient_name_conventions_agree f l :
  contains "^" f = false → contains "^" l = false → contains " " l = false →
  parse_patient_name (l +:+ "^" +:+ f) = (title (strip isspace f), title (strip isspace l))
  ∧ parse_patient_name (f +:+ " " +:+ l) = (title (strip isspace f), title (strip isspace l)).
Proof.
  intros Hf Hl Hsp. unfold parse_patient_name, partition, rpartition. split.
  - rewrite contains_append. simpl. rewrite orb_true_r.
    by rewrite (split_at_first_find "^" (l +:+ String "^" f) l f).
  - rewrite contains_append. simpl. rewrite Hf, Hl. simpl.
    by rewrite (split_at_last_find " " (f +:+ String " " l) f l).
Qed.

Lemma parse_patient_name_conventions_agree_witness :
  parse_patient_name "gogh^vincent willem" = parse_patient_name "vincent willem gogh".
Proof.
  destruct (parse_patient_name_conventions_agree "vincent willem" "gogh"
              eq_refl eq_refl eq_refl) as [H1 H2].
  exact (eq_trans H1 (eq_sym H2)).
Defined.

(** X5. The group and the project that [parse_patient_id] returns hold no
    upper-case letter; the subject code is the default or is non-empty
    without upper-case letters, so that it is non-empty whenever the
    default is. *)
Theorem parse_patient_id_lower pid dflt code group project :
  parse_patient_id (Some pid) (Some dflt) = (Some code, Some group, Some project) →
  no_upper group ∧ no_upper project
  ∧ (code = dflt ∨ (nonempty code = true ∧ no_upper code))
  ∧ (nonempty dflt = true → nonempty code = true).
Proof.
  unfold parse_patient_id, partition, rpartition, or_else.
  set (s := lower (strip punct_or_space pid)).
  assert (no_upper s) as Hs by apply lower_no_upper.
  assert (∀ lab g p,
             no_upper lab →
             (let '(g, _, e) :=
                match find_first "/" lab with
                | Some (b, a) => (b, String "/" EmptyString, a)
                | None => (lab, EmptyString, EmptyString)
                end in (g, e)) = (g, p) →
             no_upper g ∧ no_upper p) as Hlab.
  { intros lab g p Hl. destruct (find_first "/" lab) as [[b a]|] eqn:Hf.
    - intros [= <- <-]. apply find_first_Some in Hf as [Heq _].
      by eapply no_upper_split.
    - by intros [= <- <-]. }
  destruct (find_last "@" s) as [[c lab]|] eqn:Hf.
  - apply find_last_Some in Hf as [Heq _].
    destruct (no_upper_split _ _ _ _ Hs Heq) as [Hc Hl].
    destruct (find_first "/" lab) as [[b a]|] eqn:Hg; intros [= <- <- <-].
    + destruct (Hlab lab b a Hl) as [??]; [by rewrite Hg|].
      repeat split; try done; destruct (nonempty c) eqn:?; auto.
    + repeat split; try done; destruct (nonempty c) eqn:?; auto.
  - simpl. destruct (find_first "/" s) as [[b a]|] eqn:Hg; intros [= <- <- <-].
    + destruct (Hlab s b a Hs) as [??]; [by rewrite Hg|]. repeat split; auto.
    + repeat split; auto.
Qed.

Lemma parse_patient_id_lower_witness :
  no_upper "labx" ∧ no_upper "projy".
Proof.
  by destruct (parse_patient_id_lower "ABC123@LabX/ProjY" "7" "abc123" "labx" "projy"
                 eq_refl) as (? & ? & _).
Defined.


(** X6. When [deidentify] returns, the header it leaves holds no birth
    date and no name; every field other than the age, the birth date and
    the name is as it was; and the age is as it was or is an encoded
    number of months. *)
Theorem deidentify_frame dcm sd dcm' :
  deidentify dcm sd = Ok dcm' →
  clean dcm'
  ∧ (∀ k, k ≠ "PatientAge" → k ≠ "PatientBirthDate" → k ≠ "PatientName" →
          dcm' !! k = dcm !! k)
  ∧ (dcm' !! "PatientAge" = dcm !! "PatientAge"
     ∨ ∃ months, dcm' !! "PatientAge" = Some (VStr (encode_age months))).
Proof.
  unfold deidentify, clean. intros H.
  destruct (truthy (dcm !! "PatientBirthDate")) eqn:Hb.
  - destruct (parse_patient_dob _) as [dob|].
    + destruct sd as [study|]; [|done]. cbn [rbind] in H. injection H as <-.
      set (aged := delete "PatientBirthDate" (<["PatientAge":=_]> dcm)).
      assert (aged !! "PatientBirthDate" = None) as Hbd by apply lookup_delete_eq.
      assert (aged !! "PatientName" = dcm !! "PatientName") as Hn.
      { unfold aged. rewrite lookup_delete_ne by done. by rewrite lookup_insert_ne. }
      assert (aged !! "PatientAge"
              = Some (VStr (encode_age (age_in_months study dob)))) as Ha.
      { unfold aged. rewrite lookup_delete_ne by done. by rewrite lookup_insert_eq. }
      assert (∀ k, k ≠ "PatientAge" → k ≠ "PatientBirthDate" → aged !! k = dcm !! k)
        as Hk.
      { intros k ??. unfold aged. rewrite lookup_delete_ne by done.
        by rewrite lookup_insert_ne. }
      destruct (truthy (aged !! "PatientName")) eqn:Ht.
      * repeat split.
        -- by rewrite lookup_delete_ne, Hbd.
        -- by rewrite lookup_delete_eq.
        -- intros k ???. rewrite lookup_delete_ne by done. by apply Hk.
        -- right. eexists. by rewrite lookup_delete_ne.
      * repeat split; [by rewrite Hbd|done|by intros; apply Hk|right; by eexists].
    + cbn [rbind] in H. injection H as <-.
      set (gone := delete "PatientBirthDate" dcm).
      assert (gone !! "PatientBirthDate" = None) as Hbd by apply lookup_delete_eq.
      assert (∀ k, k ≠ "PatientBirthDate" → gone !! k = dcm !! k) as Hk.
      { intros k ?. unfold gone. by rewrite lookup_delete_ne. }
      destruct (truthy (gone !! "PatientName")) eqn:Ht.
      * repeat split.
        -- by rewrite lookup_delete_ne, Hbd.
        -- by rewrite lookup_delete_eq.
        -- intros k ???. rewrite lookup_delete_ne by done. by apply Hk.
        -- left. rewrite lookup_delete_ne by done. by apply Hk.
      * repeat split; [by rewrite Hbd|done|by intros; apply Hk|left; by apply Hk].
  - cbn [rbind] in H. injection H as <-.
    destruct (truthy (dcm !! "PatientName")) eqn:Ht.
    + repeat split.
      * by rewrite lookup_delete_ne.
      * by rewrite lookup_delete_eq.
      * intros k ???. by rewrite lookup_delete_ne.
      * left. by rewrite lookup_delete_ne.
    + repeat split; auto.
Qed.

Lemma deidentify_frame_witness :
  match deidentify Examples.jane (Some (mk_datetime 2020 1 1 9 30 0)) with
  | Ok d => clean d ∧ d !! "StudyID" = Examples.jane !! "StudyID"
  | Raise _ => False
  end.
Proof.
  destruct (deidentify Examples.jane (Some (mk_datetime 2020 1 1 9 30 0)))
    as [d|e] eqn:H.
  - destruct (deidentify_frame _ _ _ H) as (Hc & Hk & _).
    split; [exact Hc|]. apply Hk; discriminate.
  - vm_compute in H. discriminate H.
Defined.

(** X7. A birth date that is present but is not a date of 1900 or later
    (not a string, not YYYYMMDD, no such day) is deleted without an age
    being computed: the age field stays as it was, and no session time is
    needed. *)
Theorem deidentify_implausible_birth_date dcm sd :
  truthy (dcm !! "PatientBirthDate") = true →
  parse_patient_dob (get_or_empty dcm "PatientBirthDate") = None →
  ∃ dcm', deidentify dcm sd = Ok dcm'
          ∧ dcm' !! "PatientBirthDate" = None
          ∧ dcm' !! "PatientAge" = dcm !! "PatientAge".
Proof.
  intros Hb Hp. unfold deidentify. rewrite Hb, Hp. cbn [rbind].
  eexists. split; [done|].
  match goal with |- context [if ?b then _ else _] => destruct b end; split.
  - rewrite lookup_delete_ne by done. apply lookup_delete_eq.
  - by rewrite !lookup_delete_ne by done.
  - apply lookup_delete_eq.
  - by rewrite lookup_delete_ne.
Qed.

Lemma deidentify_implausible_birth_date_witness :
  ∃ dcm', deidentify born_1899 None = Ok dcm'
          ∧ dcm' !! "PatientBirthDate" = None
          ∧ dcm' !! "PatientAge" = born_1899 !! "PatientAge".
Proof.
  apply deidentify_implausible_birth_date; vm_compute; reflexivity.
Defined.

(** Without a session timestamp the age of a patient with a plausible
    birth date cannot be computed. *)
Lemma deidentify_needs_study_time dcm dob :
  truthy (dcm !! "PatientBirthDate") = true →
  parse_patient_dob (get_or_empty dcm "PatientBirthDate") = Some dob →
  deidentify dcm None = Raise AttributeError.
Proof. intros Hb Hp. unfold deidentify. by rewrite Hb, Hp. Qed.

Section Normalizer.

Variable sha256_hexdigest : string → string.
Variable tzinfo : Type.
Variable localize_timestamp : datetime → option tzinfo → datetime.

Abbreviation timestamp := (timestamp tzinfo localize_timestamp).
Abbreviation parse_header := (parse_header sha256_hexdigest tzinfo localize_timestamp).
Abbreviation init := (init sha256_hexdigest tzinfo localize_timestamp).

(** X8. The session timestamp is computed from the first six characters of
    the time: fractions of a second are ignored.  Without a date, without
    a time, or with an empty time there is no timestamp, and no error. *)
Theorem timestamp_ignores_fraction date time tz :
  timestamp date (Some (VStr time)) tz
  = timestamp date (Some (VStr (slice_to 6 time))) tz
  ∧ timestamp None (Some (VStr time)) tz = Ok None
  ∧ timestamp date None tz = Ok None
  ∧ timestamp date (Some (VStr EmptyString)) tz = Ok None.
Proof.
  unfold DicomFile.timestamp. repeat split.
  - cbn [truthy as_str]. rewrite nonempty_slice_to.
    destruct (truthy date && nonempty time); [|done].
    cbn [rbind]. by rewrite slice_to_idem.
  - by rewrite andb_false_r.
  - by rewrite andb_false_r.
Qed.

(** X9. A Siemens series is never split by acquisition number: whatever
    case the manufacturer is written in, the file has no acquisition
    number and, when parsed and not a screenshot, its acquisition uid is
    the series uid alone.  For another manufacturer an integer
    acquisition number is kept, as its decimal string. *)
Theorem siemens_not_split dcm parse anon tz f dcm' m :
  init (Ok dcm) parse anon tz = Ok (f, dcm') →
  dcm !! "Manufacturer" = Some (VStr m) →
  (upper m = "SIEMENS" →
   acq_no f = None
   ∧ ∀ p, parsed f = Some p → is_screenshot (dcm !! "ImageType") = false →
          dcm !! "SeriesInstanceUID" = Some (VStr (acquisition_uid p)))
  ∧ (upper m ≠ "SIEMENS" →
     ∀ n, dcm !! "AcquisitionNumber" = Some (VInt n) → acq_no f = Some (pretty n)).
Proof.
  intros H Hm. unfold DicomFile.init in H.
  destruct (negb parse && anon); [done|].
  cbn [rbind] in H. rewrite Hm in H. cbn [as_str rbind] in H.
  split.
  - intros Hup. rewrite Hup in H. cbn [String.eqb negb] in H.
    change (String.eqb "SIEMENS" "SIEMENS") with true in H. cbn [negb] in H.
    destruct parse.
    + destruct (parse_header _ _ _ _) as [[p sd]|] eqn:Hp; [|done].
      cbn [rbind] in H.
      assert (acquisition_uid (blank_names p) = acquisition_uid p) as Hb by done.
      assert (is_screenshot (dcm !! "ImageType") = false →
              dcm !! "SeriesInstanceUID" = Some (VStr (acquisition_uid p))) as Huid.
      { intros Hs. unfold DicomFile.parse_header in Hp. rewrite Hs in Hp.
        cbn [rbind] in Hp.
        DicomFileProps.break_bind Hp. injection Hp as <- <-. simpl.
        rewrite append_empty_r.
        match goal with H : as_str TypeError (dcm !! "SeriesInstanceUID") = Ok _ |- _ =>
          destruct (dcm !! "SeriesInstanceUID") as [[]|]; simplify_eq/=; done end. }
      destruct anon.
      * destruct (deidentify dcm sd); [|done]. injection H as <- <-.
        split; [done|]. intros p' [= <-]. by rewrite Hb.
      * injection H as <- <-. split; [done|]. by intros p' [= <-].
    + injection H as <- <-. by split.
  - intros Hup n Hn.
    assert (String.eqb (upper m) "SIEMENS" = false) as Hne by by apply String.eqb_neq.
    rewrite Hne in H. cbn [negb] in H.
    unfold get_or_empty in H. rewrite Hn in H.
    cbn [default from_option id py_str] in H.
    rewrite pretty_Z_nonempty in H.
    destruct parse.
    + destruct (parse_header _ _ _ _) as [[p sd]|]; [|done]. cbn [rbind] in H.
      destruct anon.
      * destruct (deidentify dcm sd); [|done]. by injection H as <- <-.
      * by injection H as <- <-.
    + by injection H as <- <-.
Qed.

(** X10. A file with a plausible birth date but without a session
    timestamp (no study date, or no study time) cannot be anonymized:
    [DicomFile.__init__] with [parse] and [anonymize] raises, whatever
    else the header holds. *)
Theorem anonymize_needs_study_time dcm tz dob :
  truthy (dcm !! "PatientBirthDate") = true →
  parse_patient_dob (get_or_empty dcm "PatientBirthDate") = Some dob →
  truthy (dcm !! "StudyDate") && truthy (dcm !! "StudyTime") = false →
  is_ok (init (Ok dcm) true true tz) = false.
Proof.
  intros Hb Hp Hs. unfold DicomFile.init. cbn [negb andb rbind].
  destruct (as_str _ _); [|done]. cbn [rbind].
  destruct (parse_header _ _ _ _) as [[p sd]|] eqn:Hh; [|done]. cbn [rbind].
  apply DicomFileProps.parse_header_study in Hh as [Ht _].
  unfold DicomFile.timestamp in Ht. rewrite Hs in Ht. injection Ht as <-.
  by rewrite (deidentify_needs_study_time dcm dob Hb Hp).
Qed.

End Normalizer.

Lemma siemens_not_split_witness :
  match DicomFile.init Examples.digest unit Examples.localize (Ok siemens_header)
          true false None with
  | Ok (f, _) => acq_no f = None
  | Raise _ => False
  end.
Proof.
  destruct (DicomFile.init Examples.digest unit Examples.localize (Ok siemens_header)
              true false None) as [[f d]|e] eqn:H.
  - assert (siemens_header !! "Manufacturer" = Some (VStr "Siemens")) as Hm
      by (vm_compute; reflexivity).
    exact (proj1 (proj1 (siemens_not_split Examples.digest unit Examples.localize
                           siemens_header true false None f d "Siemens" H Hm)
                    eq_refl)).
  - vm_compute in H. discriminate H.
Defined.

Lemma anonymize_needs_study_time_witness :
  is_ok (DicomFile.init Examples.digest unit Examples.localize (Ok undated)
           true true None) = false.
Proof.
  apply (anonymize_needs_study_time Examples.digest unit Examples.localize undated
           None (mk_datetime 1990 1 1 0 0 0)); vm_compute; reflexivity.
Defined.

End DicomFileMore.

(** ** More on the network reaper *)

Module DicomNetReaperMore.
Import PyStr PyTime Dicom PyStrFacts PyStrMore DicomNetReaper Notions.
#[local] Arguments String.append !_ _ / : simpl nomatch.

(** *** The query *)

Lemma query_records_lookup scu_resp i_state m uid :
  query_records scu_resp i_state = Ok m →
  m !! uid = match last (records_of uid scu_resp) with
             | Some r => Some (item_of r)
             | None => i_state !! uid
             end.
Proof.
  revert i_state. induction scu_resp as [|r rest IH]; intros i_state; simpl.
  - by intros [= <-].
  - destruct (py_int (NumberOfSeriesRelatedInstances r)) as [n|] eqn:Hn; [|done].
    intros H. rewrite (IH _ H). unfold records_of. rewrite filter_cons.
    case_decide as Hr.
    + destruct (filter _ rest) as [|r' l] eqn:Hl.
      * subst uid. rewrite lookup_insert_eq. cbn [last]. unfold item_of.
        by rewrite Hn.
      * change (last (r :: r' :: l)) with (last (r' :: l)).
        destruct (last (r' :: l)) eqn:Hlast; [done|]. by apply last_None in Hlast.
    + destruct (last (filter _ rest)); [done|]. by rewrite lookup_insert_ne.
Qed.

Lemma query_records_nonempty scu_resp i_state m :
  query_records scu_resp i_state = Ok m → scu_resp ≠ [] ∨ i_state ≠ ∅ → m ≠ ∅.
Proof.
  revert i_state. induction scu_resp as [|r rest IH]; intros i_state; simpl.
  - intros [= <-] [|]; done.
  - destruct (py_int _); [|done]. intros H _. apply (IH _ H). right.
    apply insert_non_empty.
Qed.

Lemma query_records_outcome scu_resp i_state :
  (Exists (fun r => py_int (NumberOfSeriesRelatedInstances r) = None) scu_resp →
   query_records scu_resp i_state = Raise ValueError)
  ∧ (Forall (fun r => is_Some (py_int (NumberOfSeriesRelatedInstances r))) scu_resp →
     is_ok (query_records scu_resp i_state) = true).
Proof.
  revert i_state. induction scu_resp as [|r rest IH]; intros i_state; simpl.
  - split; [by intros ?%Exists_nil | done].
  - destruct (py_int _) as [n|] eqn:Hn.
    + split.
      * intros [Hr|Hrest]%Exists_cons; [congruence|]. by apply IH.
      * intros [_ Hrest]%Forall_cons. by apply IH.
    + split; [done|]. intros [[? Hr] _]%Forall_cons. congruence.
Qed.

(** X11. A snapshot that [instrument_query] returns is not empty and comes
    from a find answer that is not empty; it holds, for each series uid,
    the item of the last record of the answer with that uid (its image
    count read as an integer, its patient id), and nothing for a uid
    without a record. *)
Theorem instrument_query_snapshot scu_resp m :
  instrument_query scu_resp = Ok (Some m) →
  scu_resp ≠ [] ∧ m ≠ ∅
  ∧ ∀ uid, m !! uid = item_of <$> last (records_of uid scu_resp).
Proof.
  unfold instrument_query.
  destruct (query_records scu_resp ∅) as [i_state|] eqn:Hq; [|done]. cbn [rbind].
  case_bool_decide as He; [done|]. intros [= <-].
  split; [|split; [done|]].
  - intros ->. by injection Hq as <-.
  - intros uid. rewrite (query_records_lookup _ _ _ uid Hq).
    destruct (last _); [done|]. by rewrite lookup_empty.
Qed.

Lemma instrument_query_snapshot_witness :
  match instrument_query find_answer with
  | Ok (Some m) =>
      m !! "1.2.3" = Some (mk_ReaperItem (mk_State 7 "abc123@labX/projY"))
  | _ => False
  end.
Proof.
  destruct (instrument_query find_answer) as [[m|]|e] eqn:H.
  - destruct (instrument_query_snapshot _ _ H) as (_ & _ & Hl).
    rewrite Hl. vm_compute. reflexivity.
  - vm_compute in H. discriminate H.
  - vm_compute in H. discriminate H.
Defined.

(** X12. [instrument_query] raises [ValueError] as soon as one record of
    the answer has an image count that is not an integer, whatever the
    other records are; when every count is an integer and the answer is
    not empty, it returns a snapshot. *)
Theorem instrument_query_outcome scu_resp :
  (Exists (fun r => py_int (NumberOfSeriesRelatedInstances r) = None) scu_resp →
   instrument_query scu_resp = Raise ValueError)
  ∧ (Forall (fun r => is_Some (py_int (NumberOfSeriesRelatedInstances r))) scu_resp →
     scu_resp ≠ [] →
     ∃ m, instrument_query scu_resp = Ok (Some m)).
Proof.
  unfold instrument_query. split.
  - intros H. by rewrite (proj1 (query_records_outcome scu_resp ∅) H).
  - intros H Hne. pose proof (proj2 (query_records_outcome scu_resp ∅) H) as Hok.
    destruct (query_records scu_resp ∅) as [m|] eqn:Hq; [|done]. cbn [rbind].
    exists m. rewrite bool_decide_eq_false_2; [done|].
    eapply query_records_nonempty; eauto.
Qed.

Lemma instrument_query_outcome_witness :
  instrument_query
    [mk_SeriesRecord "1.2.3" "5" "abc123@labX/projY";
     mk_SeriesRecord "1.2.4" "five" "abc123@labX/projY"]
  = Raise ValueError.
Proof.
  apply (proj1 (instrument_query_outcome _)).
  apply Exists_cons_tl, Exists_cons_hd. reflexivity.
Defined.

(** *** The filters *)

Section Filters.

Variable tzinfo : Type.
Variable re_match : string → string → bool.

Abbreviation is_desired := (is_desired_patient_id tzinfo re_match).

(** What the blacklist is compared with is lower-case and has no slash
    at either end. *)
Lemma blacklist_key_shape pid :
  let key := lower (strip (Ascii.eqb "/") pid) in
  no_upper key ∧ first_char key ≠ Some "/"%char ∧ last_char key ≠ Some "/"%char.
Proof.
  intros key. split; [apply lower_no_upper|].
  destruct (strip_stripped (Ascii.eqb "/") pid) as (pre & post & _ & _ & _ & Hf & Hl).
  unfold key. rewrite first_char_lower, last_char_lower. split.
  - destruct (first_char _) as [c|] eqn:Hc; [|done]. simpl. intros [= Hs].
    apply tolower_slash in Hs as ->. specialize (Hf _ eq_refl). done.
  - destruct (last_char _) as [c|] eqn:Hc; [|done]. simpl. intros [= Hs].
    apply tolower_slash in Hs as ->. specialize (Hl _ eq_refl). done.
Qed.

(** X13. A patient id that the whitelist matches is rejected only by a
    blacklist entry that equals the id stripped of slashes at both ends
    and lower-cased: an entry with an upper-case letter, or with a slash
    at either end, excludes nobody. *)
Theorem blacklist_excludes_by_key self pid :
  re_match (whitelist tzinfo self) pid = true →
  is_desired self pid = false →
  ∃ entry, entry ∈ blacklist tzinfo self
           ∧ entry = lower (strip (Ascii.eqb "/") pid)
           ∧ no_upper entry
           ∧ first_char entry ≠ Some "/"%char ∧ last_char entry ≠ Some "/"%char.
Proof.
  intros Hw. unfold is_desired_patient_id. rewrite Hw. simpl.
  case_bool_decide as Hin; [|done]. intros _.
  eexists. split; [exact Hin|]. split; [done|]. apply blacklist_key_shape.
Qed.

(** X14. The empty patient id is never blacklisted, whatever the blacklist
    option is: the blacklist is the option split at whitespace, and holds
    no empty word.  The empty id is desired exactly when the whitelist
    pattern matches it. *)
Theorem empty_patient_id_never_blacklisted anon opt_whitelist opt_blacklist tz :
  (EmptyString ∉ blacklist tzinfo (init tzinfo anon opt_whitelist opt_blacklist tz))
  ∧ is_desired (init tzinfo anon opt_whitelist opt_blacklist tz) EmptyString
    = re_match (replace "*" ".*" opt_whitelist) EmptyString.
Proof.
  assert (EmptyString ∉ split opt_blacklist) as Hnot.
  { intros Hin.
    by destruct (split_from_words EmptyString opt_blacklist EmptyString Hin eq_refl). }
  split; [done|].
  unfold is_desired_patient_id.
  change (lower (strip (Ascii.eqb "/") EmptyString)) with EmptyString.
  change (blacklist tzinfo (init tzinfo anon opt_whitelist opt_blacklist tz))
    with (split opt_blacklist).
  change (whitelist tzinfo (init tzinfo anon opt_whitelist opt_blacklist tz))
    with (replace "*" ".*" opt_whitelist).
  rewrite (bool_decide_eq_false_2 _ Hnot).
  by destruct (re_match _ _).
Qed.

End Filters.

Lemma blacklist_excludes_by_key_witness :
  ∃ entry, entry ∈ blacklist unit (Examples.reaper_for "*")
           ∧ entry = lower (strip (Ascii.eqb "/") "/DISCARD/")
           ∧ no_upper entry
           ∧ first_char entry ≠ Some "/"%char ∧ last_char entry ≠ Some "/"%char.
Proof.
  apply (blacklist_excludes_by_key unit Examples.re_match (Examples.reaper_for "*")
           "/DISCARD/"); vm_compute; reflexivity.
Defined.

(** *** Events and grouping *)

Lemma moves_nothing_ret {A} (a : A) : moves_nothing (ret a).
Proof. intros w. exists []. by rewrite app_nil_r. Qed.

Lemma moves_nothing_raise {A} e : moves_nothing (@raise A e).
Proof. intros w. exists []. by rewrite app_nil_r. Qed.

Lemma moves_nothing_bind {A B} (m : M A) (k : A → M B) :
  moves_nothing m → (∀ a, moves_nothing (k a)) → moves_nothing (bind m k).
Proof.
  intros Hm Hk w. unfold bind. destruct (Hm w) as (evs & Ht & Hf).
  destruct (m w) as [w1 [a|e]]; simpl in *.
  - destruct (Hk a w1) as (evs' & Ht' & Hf').
    exists (evs ++ evs'). rewrite Ht', Ht, app_assoc. split; [done|].
    by rewrite forallb_app, Hf, Hf'.
  - by exists evs.
Qed.

Lemma moves_nothing_emit e : is_move e = false → moves_nothing (emit e).
Proof. intros He w. exists [e]. simpl. by rewrite He. Qed.

Lemma moves_nothing_rename src dst : moves_nothing (rename src dst).
Proof.
  intros w. exists []. rewrite app_nil_r. unfold rename.
  by destruct (contents w !! src).
Qed.

Lemma moves_nothing_mkdir path : moves_nothing (mkdir path).
Proof.
  intros w. exists []. rewrite app_nil_r. unfold mkdir. by destruct (_ || _).
Qed.

Lemma moves_nothing_utime path time : moves_nothing (utime path time).
Proof.
  intros w. unfold utime. destruct (_ || _).
  - by exists [Utime path time].
  - exists []. by rewrite app_nil_r.
Qed.

Lemma moves_nothing_rmtree path : moves_nothing (rmtree path).
Proof.
  intros w. exists []. rewrite app_nil_r. unfold rmtree. by case_bool_decide.
Qed.




Lemma setdefault_append_keys k v d :
  NoDup d.*1 → NoDup (setdefault_append k v d).*1
  ∧ (∀ k', k' ∈ (setdefault_append k v d).*1 ↔ k' = k ∨ k' ∈ d.*1).
Proof.
  induction d as [|[k0 vs] d IH]; simpl.
  - intros _. split; [apply NoDup_singleton|]. intros k'.
    rewrite list_elem_of_singleton, elem_of_nil. tauto.
  - intros [Hk0 Hd]%NoDup_cons. case_bool_decide as Hk; simpl.
    + subst k0. split; [by apply NoDup_cons|]. intros k'.
      rewrite !elem_of_cons. tauto.
    + destruct (IH Hd) as [Hnd Hin]. split.
      * apply NoDup_cons. split; [|done]. rewrite Hin. intros [->|?]; done.
      * intros k'. rewrite !elem_of_cons, Hin. tauto.
Qed.

Lemma setdefault_append_values k v d :
  concat (setdefault_append k v d).*2 ≡ₚ v :: concat d.*2.
Proof.
  induction d as [|[k0 vs] d IH]; simpl; [done|].
  case_bool_decide; simpl.
  - rewrite <- (assoc_L (++)). simpl. symmetry. apply Permutation_middle.
  - rewrite IH. symmetry. apply Permutation_middle.
Qed.

Lemma setdefault_append_lookup k v d k' vs' :
  (k', vs') ∈ setdefault_append k v d →
  ∀ x, x ∈ vs' → (x = v ∧ k' = k) ∨ ∃ vs0, (k', vs0) ∈ d ∧ x ∈ vs0.
Proof.
  induction d as [|[k0 vs] d IH]; simpl.
  - intros [= -> ->]%list_elem_of_singleton x ->%list_elem_of_singleton. by left.
  - case_bool_decide as Hk.
    + subst k0. intros [[= -> ->]|Hin]%elem_of_cons x Hx.
      * apply elem_of_app in Hx as [Hx|Hx%list_elem_of_singleton].
        -- right. exists vs. split; [apply list_elem_of_here | done].
        -- by left.
      * right. exists vs'. split; [by apply list_elem_of_further | done].
    + intros [[= -> ->]|Hin]%elem_of_cons x Hx.
      * right. exists vs. split; [apply list_elem_of_here | done].
      * destruct (IH Hin x Hx) as [?|(vs0 & ? & ?)]; [by left|].
        right. exists vs0. split; [by apply list_elem_of_further | done].
Qed.

Lemma setdefault_append_nonempty k v d :
  Forall (fun g => g.2 ≠ []) d → Forall (fun g => g.2 ≠ []) (setdefault_append k v d).
Proof.
  induction d as [|[k0 vs] d IH]; simpl.
  - intros _. by repeat constructor.
  - intros [Hvs Hd]%Forall_cons. case_bool_decide.
    + constructor; [|done]. simpl. by destruct vs.
    + constructor; [done|]. by apply IH.
Qed.

Section ReapMore.

Variable sha256_hexdigest : string → string.
Variable tzinfo : Type.
Variable localize_timestamp : datetime → option tzinfo → datetime.
Variable re_match : string → string → bool.
Variable Metadata : Type.
Variable metadata : DicomFile.t → Metadata.
Variable create_archive : string → string → string.
Variable scu_move : string → bool * Z * list (string * option Dataset).
Variable epoch_seconds : datetime → Z.
Variable reap_peripheral_data : string → DicomFile.t → string → string → M unit.

Abbreviation init := (DicomFile.init sha256_hexdigest tzinfo localize_timestamp).
Abbreviation DicomFile_new :=
  (DicomFile_new sha256_hexdigest tzinfo localize_timestamp).
Abbreviation recheck :=
  (recheck sha256_hexdigest tzinfo localize_timestamp re_match).
Abbreviation move := (move scu_move).
Abbreviation inspect := (inspect sha256_hexdigest tzinfo localize_timestamp).
Abbreviation place :=
  (place sha256_hexdigest tzinfo localize_timestamp epoch_seconds).
Abbreviation archive_groups :=
  (archive_groups sha256_hexdigest tzinfo localize_timestamp Metadata metadata
     create_archive epoch_seconds).
Abbreviation split_into_acquisitions :=
  (split_into_acquisitions sha256_hexdigest tzinfo localize_timestamp Metadata metadata
     create_archive epoch_seconds).
Abbreviation peripheral_call := (peripheral_call Metadata reap_peripheral_data).
Abbreviation peripheral := (peripheral Metadata reap_peripheral_data).
Abbreviation AcqInfo := (AcqInfo Metadata).
Abbreviation reap :=
  (reap sha256_hexdigest tzinfo localize_timestamp re_match Metadata metadata
     create_archive scu_move epoch_seconds reap_peripheral_data).
Abbreviation acq_no_at := (acq_no_at sha256_hexdigest tzinfo localize_timestamp).
Abbreviation grouped_by_acq_no :=
  (grouped_by_acq_no sha256_hexdigest tzinfo localize_timestamp).

Lemma moves_nothing_DicomFile_new filepath parse anon tz :
  moves_nothing (DicomFile_new filepath parse anon tz).
Proof.
  intros w. exists []. rewrite app_nil_r. unfold DicomNetReaper.DicomFile_new.
  destruct (DicomFile.init _ _ _ _ _ _ _) as [[??]|]; [|done].
  by destruct (parse && anon).
Qed.

Lemma moves_nothing_inspect filepaths dcm_dict :
  moves_nothing (inspect filepaths dcm_dict).
Proof.
  revert dcm_dict. induction filepaths as [|fp rest IH]; intros d; simpl.
  - apply moves_nothing_ret.
  - apply moves_nothing_bind; [apply moves_nothing_DicomFile_new|]. intros. apply IH.
Qed.

Lemma moves_nothing_place self arcdir acq_paths dcm :
  moves_nothing (place self arcdir acq_paths dcm).
Proof.
  revert dcm. induction acq_paths as [|fp rest IH]; intros dcm; simpl.
  - apply moves_nothing_ret.
  - apply moves_nothing_bind; [apply moves_nothing_DicomFile_new|]. intros f.
    destruct (_ ≫= _); [|apply moves_nothing_raise].
    apply moves_nothing_bind; [apply moves_nothing_utime|]. intros.
    apply moves_nothing_bind; [apply moves_nothing_rename|]. intros. apply IH.
Qed.

Lemma moves_nothing_archive_groups self _id path groups acq_map :
  moves_nothing (archive_groups self _id path groups acq_map).
Proof.
  revert acq_map. induction groups as [|[acq_no acq_paths] rest IH]; intros acq_map; simpl.
  - apply moves_nothing_ret.
  - apply moves_nothing_bind; [apply moves_nothing_mkdir|]. intros.
    apply moves_nothing_bind; [apply moves_nothing_place|]. intros [dcm|].
    + apply moves_nothing_bind; [by apply moves_nothing_emit|]. intros.
      apply moves_nothing_bind; [apply moves_nothing_rmtree|]. intros. apply IH.
    + apply moves_nothing_raise.
Qed.

Lemma moves_nothing_peripheral_call tempdir acq_info :
  moves_nothing (peripheral_call tempdir acq_info).
Proof.
  intros w. eexists [_]. unfold DicomNetReaper.peripheral_call.
  by destruct (reap_peripheral_data _ _ _ _ w).
Qed.

Lemma moves_nothing_peripheral tempdir acqs metadata_map :
  moves_nothing (peripheral tempdir acqs metadata_map).
Proof.
  revert metadata_map. induction acqs as [|[k a] rest IH]; intros mm; simpl.
  - apply moves_nothing_ret.
  - apply moves_nothing_bind; [apply moves_nothing_peripheral_call|]. intros. apply IH.
Qed.

Lemma moves_nothing_recheck self success reap_cnt filepaths :
  moves_nothing (recheck self success reap_cnt filepaths).
Proof.
  unfold DicomNetReaper.recheck. destruct (_ && _); [|apply moves_nothing_ret].
  destruct filepaths; [apply moves_nothing_raise|].
  apply moves_nothing_bind; [apply moves_nothing_DicomFile_new|]. intros dcm.
  destruct (DicomFile.patient_id dcm);
    [apply moves_nothing_ret|apply moves_nothing_raise..].
Qed.

(** X15. [reap] asks the instrument for at most one transfer: either it
    leaves the trace of events as it was, or the first event it adds is
    the move of the series to the temporary directory and no later event
    is a move. *)
Theorem reap_moves_once self _id item tempdir w :
  let w' := (reap self _id item tempdir w).1 in
  trace w' = trace w
  ∨ ∃ evs, trace w' = trace w ++ Move _id tempdir :: evs
           ∧ forallb (fun e => negb (is_move e)) evs = true.
Proof.
  unfold DicomNetReaper.reap.
  destruct (images (state item) =? 0); [by left|].
  destruct (_ && _); [by left|].
  right.
  set (rest := fun sc : bool * Z => _).
  assert (∀ sc, moves_nothing (rest sc)) as Hrest.
  { intros [success reap_cnt]. unfold rest.
    apply moves_nothing_bind; [by intros ?; exists []; rewrite app_nil_r|].
    intros names.
    apply moves_nothing_bind; [apply moves_nothing_recheck|]. intros desired.
    destruct (negb desired); [apply moves_nothing_ret|].
    destruct (_ && _); [|apply moves_nothing_ret].
    apply moves_nothing_bind.
    - unfold DicomNetReaper.split_into_acquisitions.
      apply moves_nothing_bind; [apply moves_nothing_inspect|].
      intros. apply moves_nothing_archive_groups.
    - intros. apply moves_nothing_bind; [apply moves_nothing_peripheral|].
      intros. apply moves_nothing_ret. }
  unfold bind at 1. unfold DicomNetReaper.move at 1.
  destruct (scu_move _id) as [[success reap_cnt] stored].
  set (w1 := mk_world _ _ _ _).
  destruct (Hrest (success, reap_cnt) w1) as (evs & Ht & Hf).
  exists evs. rewrite Ht. unfold w1. simpl. by rewrite <- app_assoc.
Qed.

Lemma DicomFile_new_world filepath parse tz w :
  (DicomFile_new filepath parse false tz w).1 = w.
Proof.
  unfold DicomNetReaper.DicomFile_new.
  destruct (DicomFile.init _ _ _ _ _ _ _) as [[??]|]; [|done].
  by rewrite andb_false_r.
Qed.

Lemma inspect_spec filepaths d w w' groups :
  inspect filepaths d w = (w', Ok groups) →
  NoDup d.*1 → Forall (fun g => g.2 ≠ []) d → grouped_by_acq_no w d →
  w' = w
  ∧ NoDup groups.*1
  ∧ Forall (fun g => g.2 ≠ []) groups
  ∧ concat groups.*2 ≡ₚ concat d.*2 ++ filepaths
  ∧ grouped_by_acq_no w groups.
Proof.
  revert d. induction filepaths as [|fp rest IH]; intros d; simpl.
  - intros [= <- <-] ???. by rewrite app_nil_r.
  - unfold bind at 1. intros H Hnd Hne Hg.
    pose proof (DicomFile_new_world fp false None w) as Hw.
    destruct (DicomFile_new fp false false None w) as [w1 [dcm|e]] eqn:Hnew;
      simpl in Hw; subst w1; [|done].
    apply IH in H as (-> & ? & ? & Hperm & ?).
    + repeat split; try done.
      rewrite Hperm, setdefault_append_values. simpl. apply Permutation_middle.
    + by apply setdefault_append_keys.
    + by apply setdefault_append_nonempty.
    + intros k paths Hin x Hx.
      destruct (setdefault_append_lookup _ _ _ _ _ Hin x Hx) as [[-> ->]|(vs0 & ? & ?)].
      * unfold Notions.acq_no_at. by rewrite Hnew.
      * by eapply Hg.
Qed.

(** X16. The first pass of [split_into_acquisitions] partitions the files:
    it changes nothing, and when every file can be read it yields groups
    with distinct acquisition numbers, none of them empty, that hold each
    file once, every file under the acquisition number read from it. *)
Theorem inspect_partitions filepaths w w' groups :
  inspect filepaths [] w = (w', Ok groups) →
  w' = w
  ∧ NoDup groups.*1
  ∧ Forall (fun g => g.2 ≠ []) groups
  ∧ concat groups.*2 ≡ₚ filepaths
  ∧ grouped_by_acq_no w groups.
Proof.
  intros H. apply inspect_spec in H; [done|constructor|constructor|].
  by intros k paths ?%elem_of_nil.
Qed.










Lemma recheck_keeps_world self success reap_cnt filepaths w :
  (recheck self success reap_cnt filepaths w).1 = w.
Proof.
  unfold DicomNetReaper.recheck.
  destruct (success && (0 <? reap_cnt)); [|done].
  destruct filepaths as [|filepath ?]; [done|].
  unfold bind.
  pose proof (DicomFile_new_world filepath false None w) as Hw.
  destruct (DicomFile_new filepath false false None w) as [w' [dcm|e]];
    simpl in Hw; subst w'; [|done].
  by destruct (DicomFile.patient_id dcm).
Qed.

(** The ways [reap] ends. *)
Lemma reap_cases self _id item tempdir w :
  let success := (scu_move _id).1.1 in
  let reap_cnt := (scu_move _id).1.2 in
  let w1 := (move _id tempdir w).1 in
  let filepaths := join tempdir <$> listing w1 in
  (reap self _id item tempdir w = (w, Ok (None, ∅))
   ∧ (images (state item) = 0
      ∨ is_desired_patient_id tzinfo re_match self (patient_id (state item)) = false))
  ∨ (images (state item) ≠ 0
     ∧ ((∃ e, reap self _id item tempdir w = (w1, Raise e))
        ∨ reap self _id item tempdir w = (w1, Ok (None, ∅))
        ∨ (reap self _id item tempdir w = (w1, Ok (Some false, ∅))
           ∧ (success = false ∨ reap_cnt ≠ images (state item)))
        ∨ (success = true ∧ reap_cnt = images (state item)
           ∧ reap self _id item tempdir w
             = bind (split_into_acquisitions self _id tempdir filepaths)
                 (fun acq_map =>
                    bind (peripheral tempdir (map_to_list acq_map) ∅)
                      (fun metadata_map => ret (Some true, metadata_map))) w1))).
Proof.
  intros success reap_cnt w1 filepaths.
  remember (reap self _id item tempdir w) as res eqn:Hres.
  unfold DicomNetReaper.reap in Hres.
  destruct (images (state item) =? 0) eqn:Himg.
  { left. split; [done|]. left. by apply Z.eqb_eq. }
  apply Z.eqb_neq in Himg.
  destruct (nonempty _ && negb _) eqn:Hpre.
  { left. split; [done|]. right.
    apply andb_true_iff in Hpre as [_ Hd]. by apply negb_true_iff in Hd. }
  right. split; [done|].
  unfold bind at 1 in Hres.
  assert (move _id tempdir w = (w1, Ok (success, reap_cnt))) as Hmove.
  { unfold w1, success, reap_cnt, DicomNetReaper.move.
    by destruct (scu_move _id) as [[??]?]. }
  rewrite Hmove in Hres.
  unfold bind at 1, listdir in Hres. unfold bind at 1 in Hres. fold filepaths in Hres.
  pose proof (recheck_keeps_world self success reap_cnt filepaths w1) as Hw.
  destruct (recheck self success reap_cnt filepaths w1) as [w2 [[|]|e]];
    simpl in Hw; subst w2; cbn [negb] in Hres.
  - destruct (success && (reap_cnt =? images (state item))) eqn:Hboth.
    + apply andb_true_iff in Hboth as [Hs Hcnt%Z.eqb_eq].
      right; right; right. by repeat split.
    + right; right; left. split; [done|].
      apply andb_false_iff in Hboth as [?|Hcnt%Z.eqb_neq]; [by left | by right].
  - right; left. done.
  - left. by exists e.
Qed.

(** X17. [reap] reports success only for a series that declares images,
    whose transfer succeeded and delivered exactly the declared number of
    images. *)
Theorem reap_success_complete self _id item tempdir w w' metadata_map :
  reap self _id item tempdir w = (w', Ok (Some true, metadata_map)) →
  images (state item) ≠ 0
  ∧ (scu_move _id).1.1 = true
  ∧ (scu_move _id).1.2 = images (state item).
Proof.
  intros H.
  destruct (reap_cases self _id item tempdir w)
    as [[Hr _]|[Himg [[e Hr]|[Hr|[[Hr _]|(Hs & Hc & _)]]]]];
    try (rewrite Hr in H; discriminate H).
  done.
Qed.

(** X18. Whenever [reap] returns an outcome other than success, the map of
    archives it returns is empty, and the files are as they were before
    the call or as the transfer left them: nothing was renamed or
    archived. *)
Theorem reap_without_success self _id item tempdir w w' outcome metadata_map :
  reap self _id item tempdir w = (w', Ok (outcome, metadata_map)) →
  outcome ≠ Some true →
  metadata_map = ∅ ∧ (w' = w ∨ w' = (move _id tempdir w).1).
Proof.
  intros H Ho.
  destruct (reap_cases self _id item tempdir w)
    as [[Hr _]|[Himg [[e Hr]|[Hr|[[Hr _]|(Hs & Hc & Hr)]]]]];
    try (rewrite Hr in H; simplify_eq; by auto).
  rewrite Hr in H. unfold bind in H.
  destruct (split_into_acquisitions _ _ _ _ _) as [w2 [acq_map|e]]; [|done].
  destruct (peripheral _ _ _ _) as [w3 [mm|e]]; [|done].
  unfold ret in H. by simplify_eq.
Qed.



End ReapMore.

Import Examples.

Lemma inspect_partitions_witness :
  match inspect digest unit localize (join "/tmp/reap" <$> listing moved_world) []
          moved_world with
  | (w', Ok groups) => w' = moved_world ∧ NoDup groups.*1
  | (_, Raise _) => False
  end.
Proof.
  destruct (inspect digest unit localize (join "/tmp/reap" <$> listing moved_world) []
              moved_world) as [w' [groups|e]] eqn:H.
  - destruct (inspect_partitions digest unit localize _ _ _ _ H) as (Hw & Hnd & _).
    by split.
  - vm_compute in H. discriminate H.
Defined.

Lemma reap_success_complete_witness :
  outcome_of (run_reap "*" (scu_delivers 5 jane) 5 "abc123@labX/projY").2
  = Some (Some true)
  ∧ (scu_delivers 5 jane "1.2.3").1.2 = 5.
Proof.
  assert (outcome_of (run_reap "*" (scu_delivers 5 jane) 5 "abc123@labX/projY").2
          = Some (Some true)) as Ho by (vm_compute; reflexivity).
  split; [exact Ho|].
  unfold run_reap in Ho.
  destruct (reap digest unit localize re_match string metadata create_archive
              (scu_delivers 5 jane) epoch physio (reaper_for "*") "1.2.3"
              (mk_ReaperItem (mk_State 5 "abc123@labX/projY")) "/tmp/reap" empty_world)
    as [w' r] eqn:H.
  try rewrite H in Ho. simpl in Ho.
  destruct r as [[[[|]|] m]|e]; try discriminate Ho.
  exact (proj2 (proj2 (reap_success_complete _ _ _ _ _ _ _ _ _ _ _ _ _ _ _ _ _ H))).
Defined.

Lemma reap_without_success_witness :
  match run_reap "*" (scu_delivers 3 jane) 5 "abc123@labX/projY" with
  | (_, Ok (_, m)) => m = ∅
  | (_, Raise _) => False
  end.
Proof.
  assert (outcome_of (run_reap "*" (scu_delivers 3 jane) 5 "abc123@labX/projY").2
          = Some (Some false)) as Ho by (vm_compute; reflexivity).
  unfold run_reap in *.
  destruct (reap digest unit localize re_match string metadata create_archive
              (scu_delivers 3 jane) epoch physio (reaper_for "*") "1.2.3"
              (mk_ReaperItem (mk_State 5 "abc123@labX/projY")) "/tmp/reap" empty_world)
    as [w' r] eqn:H.
  try rewrite H in Ho. simpl in Ho.
  destruct r as [[o m]|e]; [|discriminate Ho].
  apply (reap_without_success _ _ _ _ _ _ _ _ _ _ _ _ _ _ _ _ _ _ H).
  injection Ho as ->. discriminate.
Defined.




End DicomNetReaperMore.

(** ** More on the file reaper *)

Module DicomFileReaperMore.
Import PyStr PyStrFacts PyStrMore DicomFileReaper Notions.
#[local] Arguments String.append !_ _ / : simpl nomatch.

(** *** The query *)

Lemma walk_paths top d p sub :
  (p, sub) ∈ walk top d →
  (p = top ∧ sub = d) ∨ ∃ parent, p = join parent (d_name sub).
Proof.
  revert top. induction d as [n t ds fs IH] using dir_ind_nested. intros top. simpl.
  intros [[= -> ->]|Hin]%elem_of_cons; [by left|]. right.
  induction IH as [|s ds' Hs _ IHds]; simpl in Hin.
  - by apply elem_of_nil in Hin.
  - apply elem_of_app in Hin as [Hin|Hin]; [|by apply IHds].
    destruct (Hs _ Hin) as [[-> ->]|?]; [by eexists | done].
Qed.

Lemma visit_sound self_path all i_state entry :
  entry ∈ all →
  (∀ k item, i_state !! k = Some item → leaf_item self_path all k item) →
  ∀ k item, visit self_path i_state entry !! k = Some item →
            leaf_item self_path all k item.
Proof.
  intros Hin Hinv k item. destruct entry as [dirpath d]. unfold visit.
  destruct (startswith "." (basename dirpath)) eqn:Hdot; [by apply Hinv|].
  destruct (String.eqb dirpath self_path) eqn:Hroot; [by apply Hinv|].
  apply String.eqb_neq in Hroot.
  destruct (bool_decide (d_dirs d = []) && _) eqn:Hleaf; [|by apply Hinv].
  apply andb_true_iff in Hleaf as [Hdirs%bool_decide_eq_true Hfiles%negb_true_iff].
  apply bool_decide_eq_false in Hfiles.
  destruct (stat_state d) as [st|] eqn:Hst; [|by apply Hinv].
  destruct (decide (k = dirpath)) as [->|Hk].
  - rewrite lookup_insert_eq. intros [= <-]. repeat split; try done.
    by exists d.
  - rewrite lookup_insert_ne by done. by apply Hinv.
Qed.

Lemma foldl_visit_sound self_path all entries i_state :
  (∀ e, e ∈ entries → e ∈ all) →
  (∀ k item, i_state !! k = Some item → leaf_item self_path all k item) →
  ∀ k item, foldl (visit self_path) i_state entries !! k = Some item →
            leaf_item self_path all k item.
Proof.
  revert i_state. induction entries as [|e entries IH]; intros i_state Hsub Hinv; [done|].
  simpl. apply IH.
  - intros e' He'. apply Hsub. by apply list_elem_of_further.
  - apply visit_sound; [|done]. apply Hsub, list_elem_of_here.
Qed.

Lemma query_sound self_path root k item :
  instrument_query self_path root !! k = Some item →
  leaf_item self_path (walk self_path root) k item.
Proof.
  apply (foldl_visit_sound self_path (walk self_path root)); [done|].
  intros k' item'. by rewrite lookup_empty.
Qed.

(** X21. Every item of the snapshot of the file reaper stands for a leaf
    directory of the walk: its key is the path of a directory that is not
    the watched root, whose own name does not begin with a dot, without
    subdirectories, with at least one file, all of whose files could be
    examined; the item holds that path and the state computed from that
    directory. *)
Theorem query_items_are_leaves self_path root k item :
  instrument_query self_path root !! k = Some item →
  path item = k ∧ k ≠ self_path ∧ startswith "." (basename k) = false
  ∧ ∃ d, (k, d) ∈ walk self_path root ∧ d_dirs d = [] ∧ d_files d ≠ []
         ∧ stat_state d = Some (state item).
Proof. apply query_sound. Qed.

Lemma visit_keeps self_path i_state entry k :
  is_Some (i_state !! k) → is_Some (visit self_path i_state entry !! k).
Proof.
  intros Hk. destruct entry as [dirpath d]. unfold visit.
  repeat (case_match; try done).
  destruct (decide (k = dirpath)) as [->|?].
  - rewrite lookup_insert_eq. by eexists.
  - by rewrite lookup_insert_ne.
Qed.

Lemma foldl_visit_keeps self_path entries i_state k :
  is_Some (i_state !! k) → is_Some (foldl (visit self_path) i_state entries !! k).
Proof.
  revert i_state. induction entries as [|e entries IH]; intros i_state Hk; [done|].
  simpl. by apply IH, visit_keeps.
Qed.

(** X22. Every leaf directory of the walk is in the snapshot: a directory
    other than the watched root, whose own name does not begin with a
    dot, without subdirectories, with at least one file, and all of whose
    files can be examined, has an item under its path. *)
Theorem query_surfaces_leaves self_path root p d st :
  (p, d) ∈ walk self_path root →
  startswith "." (basename p) = false →
  p ≠ self_path →
  d_dirs d = [] → d_files d ≠ [] →
  stat_state d = Some st →
  is_Some (instrument_query self_path root !! p).
Proof.
  intros Hin Hdot Hp Hdirs Hfiles Hst. unfold instrument_query.
  generalize (∅ : gmap string ReaperItem).
  induction (walk self_path root) as [|e entries IH]; intros i_state.
  - by apply elem_of_nil in Hin.
  - simpl. apply elem_of_cons in Hin as [<-|Hin]; [|by apply IH].
    apply foldl_visit_keeps. unfold visit. rewrite Hdot.
    apply String.eqb_neq in Hp as ->.
    rewrite Hdirs. rewrite bool_decide_eq_true_2 by done.
    rewrite bool_decide_eq_false_2 by done. simpl. rewrite Hst.
    rewrite lookup_insert_eq. by eexists.
Qed.

(** X23. A directory that the walk reaches and that is named with a
    leading dot (a name without a slash, as directory names are) has no
    item in the snapshot, wherever it lies in the tree. *)
Theorem query_skips_dot_named self_path root p d :
  (p, d) ∈ walk self_path root →
  contains "/" (d_name d) = false →
  startswith "." (d_name d) = true →
  instrument_query self_path root !! p = None.
Proof.
  intros Hin Hslash Hdot.
  apply walk_paths in Hin as [[-> _]|[parent ->]].
  - destruct (instrument_query self_path root !! self_path) as [item|] eqn:Hq; [|done].
    by apply query_sound in Hq as (_ & ? & _).
  - apply (DicomFileReaperProps.foldl_visit_dot_free self_path (walk self_path root) ∅);
      [done|].
    by rewrite basename_join.
Qed.

Import Examples.

Lemma query_items_are_leaves_witness :
  match instrument_query "/data" hidden_tree !! "/data/.cache/series1" with
  | Some item => path item = "/data/.cache/series1"
  | None => False
  end.
Proof.
  destruct (instrument_query "/data" hidden_tree !! "/data/.cache/series1")
    as [item|] eqn:H.
  - exact (proj1 (query_items_are_leaves _ _ _ _ H)).
  - vm_compute in H. discriminate H.
Defined.

Lemma query_surfaces_leaves_witness :
  is_Some (instrument_query "/data" hidden_tree !! "/data/.cache/series1").
Proof.
  eapply (query_surfaces_leaves "/data" hidden_tree "/data/.cache/series1"
            (Dir "series1" (Some 100) [] [valid "a.dcm"])).
  - vm_compute. do 2 apply list_elem_of_further. apply list_elem_of_here.
  - vm_compute. reflexivity.
  - discriminate.
  - reflexivity.
  - discriminate.
  - vm_compute. reflexivity.
Defined.

Lemma query_skips_dot_named_witness :
  instrument_query "/data" hidden_tree !! "/data/.trash" = None.
Proof.
  apply (query_skips_dot_named "/data" hidden_tree "/data/.trash"
           (Dir ".trash" (Some 100) [] [valid "b.dcm"])).
  - vm_compute. do 3 apply list_elem_of_further. apply list_elem_of_here.
  - vm_compute. reflexivity.
  - vm_compute. reflexivity.
Defined.

(** *** [reap] *)

Lemma in_data_files listing f :
  f ∈ data_files listing ↔ f ∈ listing ∧ is_sidecar (f_name f) = false ∧ f_dicom f = true.
Proof.
  unfold data_files. rewrite !list_elem_of_In, filter_In.
  rewrite andb_true_iff, negb_true_iff. tauto.
Qed.

(** X24. When the file reaper's [reap] returns, it reports success and has
    built one archive, reap.zip in the temporary directory, named reap;
    the archive holds exactly the names of the files of the directory
    that are not the metadata sidecar and that read as DICOM; its
    metadata names the file type dicom and else is what the sidecar, if
    there is one, holds. *)
Theorem reap_archive_contents _id item tempdir listing result a :
  reap _id item tempdir listing = Ok (result, a) →
  result = true
  ∧ arc_path a = tempdir +:+ "/reap.zip" ∧ arc_name a = "reap"
  ∧ (∀ fn, fn ∈ arc_files a ↔
           ∃ f, f ∈ listing ∧ f_name f = fn
                ∧ is_sidecar fn = false ∧ f_dicom f = true)
  ∧ arc_metadata a !! "filetype" = Some (JStr "dicom")
  ∧ ∀ k, k ≠ "filetype" →
         arc_metadata a !! k
         = match last_sidecar listing ≫= f_json with
           | Some (JObject m) => m !! k
           | _ => None
           end.
Proof.
  rewrite DicomFileReaperProps.reap_spec.
  destruct (load_metadata (last_sidecar listing)) as [j|] eqn:Hj; [|done].
  cbn [rbind]. destruct j as [m| |]; try done. cbn [set_filetype rbind].
  intros [= <- <-]. cbn [arc_path arc_name arc_files arc_metadata].
  split; [done|]. split.
  { rewrite !append_assoc. done. }
  split.
  { unfold basename, DicomNetReaper.basename, rpartition.
    erewrite split_at_last_find; [done|]. by split. }
  split.
  { intros fn. rewrite list_elem_of_fmap. split.
    - intros (f & -> & (? & ? & ?)%in_data_files). by exists f.
    - intros (f & ? & <- & ? & ?). exists f. split; [done|]. by apply in_data_files. }
  split; [by rewrite lookup_insert_eq|].
  intros k Hk. rewrite lookup_insert_ne by done.
  unfold load_metadata in Hj. destruct (last_sidecar listing) as [f|]; simpl.
  - destruct (f_json f); by simplify_eq.
  - simplify_eq. by rewrite lookup_empty.
Qed.

Lemma reap_archive_contents_witness :
  match reap "/data/s1" an_item "/tmp/w"
          [valid "a.dcm"; sidecar {["subject" := JStr "s01"]}; corrupt "b.dcm"] with
  | Ok (result, a) =>
      result = true ∧ arc_path a = "/tmp/w/reap.zip"
      ∧ arc_metadata a !! "subject" = Some (JStr "s01")
  | Raise _ => False
  end.
Proof.
  destruct (reap "/data/s1" an_item "/tmp/w"
              [valid "a.dcm"; sidecar {["subject" := JStr "s01"]}; corrupt "b.dcm"])
    as [[result a]|e] eqn:H.
  - destruct (reap_archive_contents _ _ _ _ _ _ H) as (Hr & Hp & _ & _ & _ & Hk).
    split; [exact Hr|]. split; [exact Hp|].
    rewrite (Hk "subject") by discriminate. vm_compute. reflexivity.
  - vm_compute in H. discriminate H.
Defined.

(** X25. A metadata sidecar that does not load as a JSON object makes
    the file reaper's [reap] raise, whatever the other files of the
    directory are: [ValueError] when it is not JSON, [TypeError] when it
    is JSON but not an object. *)
Theorem reap_bad_sidecar_raises _id item tempdir listing f :
  last_sidecar listing = Some f →
  (∀ m, f_json f ≠ Some (JObject m)) →
  reap _id item tempdir listing
  = Raise (match f_json f with
           | None => ValueError
           | Some _ => TypeError
           end).
Proof.
  intros Hlast Hbad. rewrite DicomFileReaperProps.reap_spec, Hlast.
  unfold load_metadata.
  destruct (f_json f) as [[m| |]|]; cbn [rbind set_filetype]; try done.
  by destruct (Hbad m).
Qed.

Lemma reap_bad_sidecar_raises_witness :
  reap "/data/s1" an_item "/tmp/w"
    [valid "a.dcm"; mk_file "metadata.json" (Some 2) false (Some (JArray []))]
  = Raise TypeError.
Proof.
  apply (reap_bad_sidecar_raises "/data/s1" an_item "/tmp/w"
           [valid "a.dcm"; mk_file "metadata.json" (Some 2) false (Some (JArray []))]
           (mk_file "metadata.json" (Some 2) false (Some (JArray [])))).
  - reflexivity.
  - intros m. discriminate.
Defined.

(** *** The constructor *)

(** X26. When the constructor of the file reaper returns, the id under
    which the reaper registers holds no slash, whatever the watched path
    is, and the path was a directory or was missing and could be made:
    a path that is there and is no directory, or a directory that cannot
    be made, ends the construction. *)
Theorem reaper_id_has_no_slash path path_exists path_isdir mkdir id :
  DicomFileReaperInit.init path path_exists path_isdir mkdir = Ok id →
  contains "/" id = false
  ∧ ((path_exists = true ∧ path_isdir = true)
     ∨ (path_exists = false ∧ mkdir = Ok tt)).
Proof.
  unfold DicomFileReaperInit.init.
  destruct path_exists, path_isdir, mkdir as [[]|e]; cbn [negb rbind];
    intros H; simplify_eq;
    (split; [by apply replace_char_absent | by auto]).
Qed.

Lemma reaper_id_has_no_slash_witness :
  DicomFileReaperInit.reaper_id "/data/scans/" = "data_scans"
  ∧ contains "/" (DicomFileReaperInit.reaper_id "/data/scans/") = false.
Proof.
  split; [reflexivity|].
  exact (proj1 (reaper_id_has_no_slash "/data/scans/" false false (Ok tt) _ eq_refl)).
Defined.

End DicomFileReaperMore.
